(** * Surf_Crawl: the crawl-and-extract engine of [Crawl.py]

    A shallow embedding of class [WebScraper] (the politeness check, the
    fetcher, the four profile extractors and the keyword traversal) and the
    proofs of its properties.

    Conventions of the embedding.
    - A Python [str] is a [string]; its characters are the code points below
      256, which is where [lower], [strip] and the URL syntax are modelled.
    - Python [int]s that the caller chooses ([max_items], [max_depth],
      [max_pages], a depth) are [Z]; lengths and counts are [nat].
    - A call that may raise returns an [outcome]; code that also logs or
      touches the network returns an [M], an outcome with the trace of the
      events it caused.
    - What lies outside [Crawl.py] and cannot be computed from its arguments
      (the network, the robots parser, the HTML parser, the CSS engine, the
      clock, [urljoin]) is a field of the environment [Env].  The
      environment is a function: during a run it answers the same question
      the same way.
    - The traversal is a loop without a bound known in advance; it is run
      with fuel, and [while_terminates] shows that some fuel always
      suffices. *)

From Stdlib Require Import List String Ascii ZArith QArith Bool Arith Lia.
Import ListNotations.

Set Warnings "-register-all".

Local Open Scope list_scope.
Local Open Scope string_scope.
Local Open Scope nat_scope.

(** ** Python strings *)

Module Py.

Definition code (c : ascii) : nat := nat_of_ascii c.

(** [str.isspace] on one character. *)
Definition isspace (c : ascii) : bool :=
  let n := code c in
  ((9 <=? n) && (n <=? 13)) || ((28 <=? n) && (n <=? 32))
  || (n =? 133) || (n =? 160).

(** [str.lower] on one character: A-Z and the capital letters of Latin-1. *)
Definition lower_char (c : ascii) : ascii :=
  let n := code c in
  if ((65 <=? n) && (n <=? 90))
     || ((192 <=? n) && (n <=? 222) && negb (n =? 215))
  then ascii_of_nat (n + 32) else c.

Fixpoint lower (s : string) : string :=
  match s with
  | EmptyString => EmptyString
  | String c s' => String (lower_char c) (lower s')
  end.

(** [s[:n]] for a natural [n]. *)
Fixpoint take (n : nat) (s : string) : string :=
  match n, s with
  | S n', String c s' => String c (take n' s')
  | _, _ => EmptyString
  end.

(** [s[n:]] for a natural [n]. *)
Fixpoint drop (n : nat) (s : string) : string :=
  match n, s with
  | S n', String _ s' => drop n' s'
  | _, _ => s
  end.

(** [s.lstrip(chars)] with the set of characters given as a predicate. *)
Fixpoint lstrip_by (p : ascii -> bool) (s : string) : string :=
  match s with
  | String c s' => if p c then lstrip_by p s' else s
  | EmptyString => EmptyString
  end.

Fixpoint rev_string (acc s : string) : string :=
  match s with
  | EmptyString => acc
  | String c s' => rev_string (String c acc) s'
  end.

Definition rstrip_by (p : ascii -> bool) (s : string) : string :=
  rev_string EmptyString (lstrip_by p (rev_string EmptyString s)).

(** [s.strip()]. *)
Definition strip (s : string) : string :=
  rstrip_by isspace (lstrip_by isspace s).

(** [s.replace(c, '')] for every character [c] that satisfies [p]. *)
Fixpoint remove_chars (p : ascii -> bool) (s : string) : string :=
  match s with
  | EmptyString => EmptyString
  | String c s' =>
      if p c then remove_chars p s' else String c (remove_chars p s')
  end.

(** [c in s]. *)
Fixpoint contains_char (c : ascii) (s : string) : bool :=
  match s with
  | EmptyString => false
  | String d s' => Ascii.eqb c d || contains_char c s'
  end.

Fixpoint forall_chars (p : ascii -> bool) (s : string) : bool :=
  match s with
  | EmptyString => true
  | String c s' => p c && forall_chars p s'
  end.

(** [s.find(c)] for a character, [None] for -1. *)
Fixpoint find_char (c : ascii) (s : string) : option nat :=
  match s with
  | EmptyString => None
  | String d s' =>
      if Ascii.eqb c d then Some 0 else option_map S (find_char c s')
  end.

(** The position of the first character of [s] that satisfies [p], the
    length of [s] when there is none. *)
Fixpoint find_first (p : ascii -> bool) (s : string) : nat :=
  match s with
  | EmptyString => 0
  | String c s' => if p c then 0 else S (find_first p s')
  end.

(** [sep.join(l)]. *)
Fixpoint join (sep : string) (l : list string) : string :=
  match l with
  | [] => EmptyString
  | [s] => s
  | s :: l' => s ++ sep ++ join sep l'
  end.

Definition is_empty (s : string) : bool :=
  match s with EmptyString => true | _ => false end.

(** [s.count(sub)]: the occurrences of [sub] found from left to right, the
    search resuming after the end of each one.  [skip] is the number of
    characters still covered by the last occurrence found.  The empty [sub]
    occurs between any two characters and at both ends. *)
Fixpoint count_from (sub s : string) (skip : nat) : nat :=
  match s with
  | EmptyString => 0
  | String _ s' =>
      match skip with
      | S k => count_from sub s' k
      | O => if prefix sub s
             then S (count_from sub s' (String.length sub - 1))
             else count_from sub s' 0
      end
  end.

Definition count (s sub : string) : nat :=
  if is_empty sub then S (String.length s) else count_from sub s 0.

(** [l[:n]] for a Python integer [n]: a negative [n] counts from the end. *)
Definition slice_to {A : Type} (n : Z) (l : list A) : list A :=
  if (n <? 0)%Z then firstn (List.length l - Z.to_nat (- n)) l
  else firstn (Z.to_nat n) l.

End Py.

(** ** Outcomes and traces *)

Inductive outcome (A : Type) : Type :=
| Return (a : A)
| Raise (e : string).
Arguments Return {A} a.
Arguments Raise {A} e.

Inductive level : Type := ERROR | WARNING.

(** What a call does besides returning.  [Visit] is bookkeeping of the
    traversal: it marks the call [self.get_page(url)] made for the queue
    entry [(url, depth)]. *)
Inductive event : Type :=
| RobotsRead (robots_url : string)
| HttpGet (url : string)
| Sleep (seconds : Q)
| Log (lvl : level) (msg : string)
| Visit (url : string) (depth : Z).

Definition trace : Type := list event.

Definition M (A : Type) : Type := (outcome A * trace)%type.

Definition ret {A : Type} (a : A) : M A := (Return a, []).

Definition raise {A : Type} (e : string) : M A := (Raise e, []).

Definition lift {A : Type} (o : outcome A) : M A := (o, []).

Definition emit (ev : event) : M unit := (Return tt, [ev]).

Definition bind {A B : Type} (m : M A) (f : A -> M B) : M B :=
  match m with
  | (Return a, t) => let (o, t') := f a in (o, (t ++ t')%list)
  | (Raise e, t) => (Raise e, t)
  end.

(** [try: m except Exception as e: h e]. *)
Definition try_except {A : Type} (m : M A) (h : string -> M A) : M A :=
  match m with
  | (Raise e, t) => let (o, t') := h e in (o, (t ++ t')%list)
  | _ => m
  end.

Declare Scope monad_scope.
Delimit Scope monad_scope with monad.
Notation "x <- m ;; k" := (bind m (fun x => k))
  (at level 100, m at next level, right associativity) : monad_scope.
Notation "m ;; k" := (bind m (fun _ => k))
  (at level 100, right associativity) : monad_scope.
Local Open Scope monad_scope.

Definition log (lvl : level) (msg : string) : M unit := emit (Log lvl msg).

(** ** [urllib.parse.urlparse]: the scheme and the network location *)

Record ParseResult : Type := {
  scheme : string;
  netloc : string
}.

Definition is_alpha (c : ascii) : bool :=
  let n := Py.code c in
  ((65 <=? n) && (n <=? 90)) || ((97 <=? n) && (n <=? 122)).

Definition is_digit (c : ascii) : bool :=
  let n := Py.code c in (48 <=? n) && (n <=? 57).

(** [c in scheme_chars]. *)
Definition scheme_char (c : ascii) : bool :=
  is_alpha c || is_digit c
  || Ascii.eqb c "+" || Ascii.eqb c "-" || Ascii.eqb c ".".

(** [c in _WHATWG_C0_CONTROL_OR_SPACE]. *)
Definition c0_control_or_space (c : ascii) : bool := Py.code c <=? 32.

(** [c in _UNSAFE_URL_BYTES_TO_REMOVE]: tab, carriage return, line feed. *)
Definition unsafe_url_byte (c : ascii) : bool :=
  let n := Py.code c in (n =? 9) || (n =? 13) || (n =? 10).

Definition netloc_delim (c : ascii) : bool :=
  Ascii.eqb c "/" || Ascii.eqb c "?" || Ascii.eqb c "#".

(** The scheme of [url] and what follows its colon, as [urlsplit] takes them
    apart: a scheme is a letter followed by scheme characters. *)
Definition split_scheme (url : string) : string * string :=
  match Py.find_char ":" url with
  | Some (S i) =>
      match url with
      | String c _ =>
          if is_alpha c && Py.forall_chars scheme_char (Py.take (S i) url)
          then (Py.lower (Py.take (S i) url), Py.drop (S (S i)) url)
          else (EmptyString, url)
      | EmptyString => (EmptyString, url)
      end
  | _ => (EmptyString, url)
  end.

Section Urlparse.

(** [_check_bracketed_netloc] succeeds: the host between the brackets is an
    IPv6 or IPvFuture address.  Not computed here. *)
Variable bracketed_netloc_ok : string -> bool.

Definition urlparse (url : string) : outcome ParseResult :=
  let url := Py.lstrip_by c0_control_or_space url in
  let url := Py.remove_chars unsafe_url_byte url in
  let (scheme, url) := split_scheme url in
  if prefix "//" url then
    let rest := Py.drop 2 url in
    let netloc := Py.take (Py.find_first netloc_delim rest) rest in
    let has_open := Py.contains_char "[" netloc in
    let has_close := Py.contains_char "]" netloc in
    if (has_open && negb has_close) || (has_close && negb has_open)
    then Raise "Invalid IPv6 URL"
    else if has_open && has_close && negb (bracketed_netloc_ok netloc)
    then Raise "Invalid IPv6 URL"
    else Return {| scheme := scheme; netloc := netloc |}
  else Return {| scheme := scheme; netloc := EmptyString |}.

End Urlparse.

(** ** The parsed document (BeautifulSoup) *)

(** A node of the tree: a string, or a tag with its name, its [class]
    attribute (a list of names, absent when the tag has none), its other
    attributes and its contents.  Comments and scripts, which [get_text]
    leaves out, are not part of the tree. *)
Inductive node : Type :=
| NavigableString (s : string)
| Tag (name : string) (klass : option (list string))
      (attrs : list (string * string)) (contents : list node).

(** A tag in its document: the node and its ancestors, nearest first. *)
Record element : Type := {
  el : node;
  parents : list node
}.

Definition is_tag (n : node) : bool :=
  match n with Tag _ _ _ _ => true | NavigableString _ => false end.

(** [element.name]. *)
Definition tag_name (e : element) : string :=
  match el e with Tag n _ _ _ => n | NavigableString _ => EmptyString end.

Fixpoint assoc (k : string) (l : list (string * string)) : option string :=
  match l with
  | [] => None
  | (k', v) :: l' => if String.eqb k k' then Some v else assoc k l'
  end.

(** [element.get(key)] for a string-valued attribute. *)
Definition get (e : element) (key : string) : option string :=
  match el e with
  | Tag _ _ a _ => assoc key a
  | NavigableString _ => None
  end.

(** [element.get('class', [])]. *)
Definition get_class (e : element) : list string :=
  match el e with
  | Tag _ (Some c) _ _ => c
  | _ => []
  end.

(** The tags below [n] in document order, [ps] being the ancestors of [n]. *)
Fixpoint descendants (ps : list node) (n : node) : list element :=
  match n with
  | NavigableString _ => []
  | Tag _ _ _ cs =>
      (fix below (l : list node) : list element :=
         match l with
         | [] => []
         | c :: l' =>
             ((if is_tag c then [{| el := c; parents := n :: ps |}] else [])
              ++ descendants (n :: ps) c ++ below l')%list
         end) cs
  end.

Definition name_in (names : list string) (e : element) : bool :=
  existsb (String.eqb (tag_name e)) names.

(** [element.find_all(names)]. *)
Definition find_all (e : element) (names : list string) : list element :=
  filter (name_in names) (descendants (parents e) (el e)).

(** [element.find(names)]: the first tag below [e] whose name is one of
    [names].  A name such as ['.title'] is compared with tag names like any
    other. *)
Definition find (e : element) (names : list string) : option element :=
  hd_error (find_all e names).

(** [element.find_parent(name)]. *)
Fixpoint find_parent_in (name : string) (ps : list node) : option element :=
  match ps with
  | [] => None
  | p :: ps' =>
      match p with
      | Tag n _ _ _ =>
          if String.eqb n name then Some {| el := p; parents := ps' |}
          else find_parent_in name ps'
      | NavigableString _ => find_parent_in name ps'
      end
  end.

Definition find_parent (e : element) (name : string) : option element :=
  find_parent_in name (parents e).

(** The strings below a node, in document order. *)
Fixpoint all_strings (n : node) : list string :=
  match n with
  | NavigableString s => [s]
  | Tag _ _ _ cs =>
      (fix below (l : list node) : list string :=
         match l with
         | [] => []
         | c :: l' => (all_strings c ++ below l')%list
         end) cs
  end.

(** [element.get_text(separator, strip)]: with [strip], every string is
    stripped and the empty ones are left out. *)
Definition get_text (sep : string) (strip : bool) (n : node) : string :=
  Py.join sep
    (if strip
     then filter (fun s => negb (Py.is_empty s)) (map Py.strip (all_strings n))
     else all_strings n).

(** The [BeautifulSoup] object is the root tag; it has no ancestors. *)
Definition root (soup : node) : element := {| el := soup; parents := [] |}.

(** ** Extraction records *)

(** The dictionaries the scraper returns, one constructor for each value of
    their ['type'] key. *)
Inductive record : Type :=
| NewsRecord (title link summary date author source : string)
| ProductRecord (name price rating link image availability source : string)
| SocialRecord (author content timestamp likes hashtags source : string)
| GenericRecord (text link tag classes source : string)
| KeywordRecord (url keyword : string) (count : nat).

(** The double quote, for the selectors that contain one. *)
Definition dq : string := String (ascii_of_nat 34) EmptyString.

(** ** The environment of the scraper *)

Record Response : Type := {
  status_code : Z;
  content : string
}.

Record Env : Type := {
  (** [_check_bracketed_netloc] of [urllib.parse] does not raise. *)
  bracketed_netloc_ok : string -> bool;
  (** [urljoin(base, url)]. *)
  urljoin : string -> string -> outcome string;
  (** [rp.set_url(robots_url); rp.read(); rp.can_fetch('*', url)]. *)
  robots_can_fetch : string -> string -> outcome bool;
  (** [session.get(url, timeout=10)]: it raises on a network error or a
      timeout. *)
  session_get : string -> outcome Response;
  (** [BeautifulSoup(content, 'html.parser')]. *)
  html_parser : string -> outcome node;
  (** The pause of [time.sleep(seconds)] for a length that is not negative.
      The platform refuses a length its clock cannot hold, from about 9.2e9
      seconds on, with [OverflowError] or [OSError]; where exactly depends
      on the platform and on the reading of the clock. *)
  clock_sleep : Q -> outcome unit;
  (** [soup.select(selector)]. *)
  select : node -> string -> outcome (list element)
}.

(** The attributes of a [WebScraper] that its methods read.  The delay is a
    finite float, hence a rational. *)
Record WebScraper : Type := {
  delay : Q;
  respect_robots : bool;
  max_items : Z
}.

(** [response.raise_for_status()]. *)
Definition raise_for_status (r : Response) : outcome unit :=
  if ((400 <=? status_code r) && (status_code r <? 600))%Z
  then Raise "HTTPError" else Return tt.

(** ** [urllib.robotparser.RobotFileParser]

    What [urlopen] does with the address of a robots file: it raises
    [HTTPError], it raises another error, or it opens the file. *)
Inductive urlopen_result : Type :=
| HTTPError (code : Z)
| OtherError (e : string)
| Opened (raw : string).

(** [rp.set_url(robots_url); rp.read(); rp.can_fetch('*', url)].  Of the
    errors of [urlopen], [read] catches [HTTPError] only: the codes 401 and
    403 set [disallow_all], the other codes from 400 to 499 set [allow_all]
    and any other code sets nothing, so that [can_fetch], which finds the
    file never read, answers [False].  Every other error leaves [read].
    [rules raw url] is what the file [raw], decoded and parsed, says of
    [url]. *)
Definition robot_file_parser (urlopen : string -> urlopen_result)
    (rules : string -> string -> outcome bool) (robots_url url : string)
    : outcome bool :=
  match urlopen robots_url with
  | HTTPError code =>
      if ((code =? 401) || (code =? 403))%Z then Return false
      else if ((400 <=? code) && (code <? 500))%Z then Return true
      else Return false
  | OtherError e => Raise e
  | Opened raw => rules raw url
  end.

(** What [time.sleep(seconds)] makes of its argument.  The seconds are
    converted to nanoseconds, rounded away from zero, in 64 bits: a negative
    length is refused with [ValueError], and with [OverflowError] when the
    product of the float by 1e9 rounds below [-2^63], that is when it is
    below [-(2^63 + 1024)].  A length that is not negative is the
    platform's to take or to refuse. *)
Definition time_sleep (env : Env) (seconds : Q) : outcome unit :=
  if Qle_bool 0 seconds then clock_sleep env seconds
  else if Qle_bool (- (9223372036854776832 # 1000000000)) seconds
       then Raise "sleep length must be non-negative"
       else Raise "timestamp too large to convert to C _PyTime_t".

(** [time.sleep(seconds)]. *)
Definition sleep (env : Env) (seconds : Q) : M unit :=
  match time_sleep env seconds with
  | Return _ => emit (Sleep seconds)
  | Raise e => raise e
  end.

Definition http_scheme (s : string) : bool :=
  String.eqb s "http" || String.eqb s "https".

Section Scraper.

Variable env : Env.
Variable self : WebScraper.

Definition parse (url : string) : outcome ParseResult :=
  urlparse (bracketed_netloc_ok env) url.

(** ** [WebScraper.can_fetch] *)
Definition can_fetch (url : string) : M bool :=
  if negb (respect_robots self) then ret true
  else
    try_except
      (parsed_url <- lift (parse url) ;;
       let robots_url :=
         scheme parsed_url ++ "://" ++ netloc parsed_url ++ "/robots.txt" in
       emit (RobotsRead robots_url) ;;
       lift (robots_can_fetch env robots_url url))
      (fun e =>
         log WARNING ("Could not check robots.txt for " ++ url ++ ": " ++ e) ;;
         ret true).

(** ** [WebScraper.get_page] *)
Definition get_page (url : string) : M (option node) :=
  parsed_url <- lift (parse url) ;;
  if negb (http_scheme (scheme parsed_url)) then
    log ERROR ("Blocked potentially unsafe URL scheme: " ++ scheme parsed_url) ;;
    ret None
  else
    allowed <- can_fetch url ;;
    if negb allowed then
      log WARNING ("Robots.txt disallows fetching " ++ url) ;;
      ret None
    else
      try_except
        (emit (HttpGet url) ;;
         response <- lift (session_get env url) ;;
         lift (raise_for_status response) ;;
         soup <- lift (html_parser env (content response)) ;;
         sleep env (delay self) ;;
         ret (Some soup))
        (fun e =>
           log ERROR ("Error fetching " ++ url ++ ": " ++ e) ;;
           ret None).

(** ** The selector loop of the extractors

    [for selector in selectors: found_elements = soup.select(selector);
     if found_elements: elements = keep(found_elements); break], where
    [elements] starts empty. *)
Fixpoint select_first (keep : list element -> list element) (soup : node)
    (selectors : list string) : outcome (list element) :=
  match selectors with
  | [] => Return []
  | selector :: rest =>
      match select env soup selector with
      | Raise e => Raise e
      | Return [] => select_first keep soup rest
      | Return found_elements => Return (keep found_elements)
      end
  end.

(** [custom_selectors if custom_selectors else default]. *)
Definition selectors_or (custom_selectors : option (list string))
    (default : list string) : list string :=
  match custom_selectors with
  | Some (s :: l) => s :: l
  | _ => default
  end.

(** [x.get_text(strip=True) if x else default]. *)
Definition text_or (default : string) (x : option element) : string :=
  match x with
  | Some t => get_text EmptyString true (el t)
  | None => default
  end.

(** [urljoin(base_url, x.get(key)) if x and x.get(key) else ''] (the empty
    string). *)
Definition resolve (base_url : string) (x : option element) (key : string)
    : outcome string :=
  match x with
  | Some t =>
      match get t key with
      | Some v =>
          if Py.is_empty v then Return EmptyString
          else urljoin env base_url v
      | None => Return EmptyString
      end
  | None => Return EmptyString
  end.

(** The text of a date element, replaced by its [datetime] attribute when
    it has a non-empty one. *)
Definition stamp (x : option element) : string :=
  match x with
  | Some t =>
      match get t "datetime" with
      | Some v => if Py.is_empty v then text_or EmptyString x else v
      | None => text_or EmptyString x
      end
  | None => EmptyString
  end.

Definition obind {A B : Type} (o : outcome A) (f : A -> outcome B)
    : outcome B :=
  match o with
  | Return a => f a
  | Raise e => Raise e
  end.

(** [for element in elements: try: items.extend(body(element)) except
    Exception as e: self.logger.error(label + e); continue]. *)
Fixpoint for_each (label : string) (body : element -> outcome (list record))
    (items : list record) (elements : list element) : M (list record) :=
  match elements with
  | [] => ret items
  | element :: rest =>
      items <- try_except
                 (new <- lift (body element) ;; ret (items ++ new)%list)
                 (fun e => log ERROR (label ++ e) ;; ret items) ;;
      for_each label body items rest
  end.

(** ** [WebScraper.scrape_news_articles] *)

Definition news_selectors : list string :=
  ["article"; ".article"; ".news-item"; ".post";
   "div[class*=" ++ dq ++ "article" ++ dq ++ "]"; ".story"; ".news-story"].

(** The body of the loop over the elements: the record it appends. *)
Definition news_item (base_url : string) (element : element)
    : outcome (list record) :=
  let title := find element ["h1"; "h2"; "h3"; "h4"; ".title"; ".headline"] in
  let title_text := text_or "No title" title in
  let link_element := find element ["a"] in
  obind (resolve base_url link_element "href") (fun link =>
  let summary_element :=
    find element ["p"; ".summary"; ".excerpt"; ".description"] in
  let summary := Py.take 200 (text_or EmptyString summary_element) in
  let date_element :=
    find element ["time"; ".date"; ".published"; ".timestamp"] in
  let date := stamp date_element in
  let author_element := find element [".author"; ".byline"; ".writer"] in
  let author := text_or EmptyString author_element in
  Return [NewsRecord title_text link summary date author base_url]).

Definition scrape_news_articles (base_url : string)
    (custom_selectors : option (list string)) : M (list record) :=
  let articles := [] in
  soup <- get_page base_url ;;
  match soup with
  | None => ret articles
  | Some soup =>
      let selectors := selectors_or custom_selectors news_selectors in
      elements <- lift (select_first (fun found => found) soup selectors) ;;
      for_each "Error parsing article: " (news_item base_url) articles
        (Py.slice_to (max_items self) elements)
  end.

(** ** [WebScraper.scrape_product_listings] *)

Definition product_selectors : list string :=
  [".product"; ".item"; "[data-product]"; ".product-item"; ".product-card";
   ".listing-item"].

Definition product_item (base_url : string) (element : element)
    : outcome (list record) :=
  let name_element :=
    find element ["h1"; "h2"; "h3"; ".product-name"; ".title"; ".name"] in
  let name := text_or "No name" name_element in
  let price_element :=
    find element
      [".price"; ".cost"; "[class*=" ++ dq ++ "price" ++ dq ++ "]"; ".amount"]
  in
  let price := text_or "No price" price_element in
  let link_element := find element ["a"] in
  obind (resolve base_url link_element "href") (fun link =>
  let rating_element :=
    find element
      [".rating"; ".stars"; "[class*=" ++ dq ++ "rating" ++ dq ++ "]"; ".score"]
  in
  let rating := text_or EmptyString rating_element in
  let img_element := find element ["img"] in
  obind (resolve base_url img_element "src") (fun image =>
  let availability_element :=
    find element [".availability"; ".stock"; ".in-stock"] in
  let availability := text_or EmptyString availability_element in
  Return [ProductRecord name price rating link image availability base_url])).

Definition scrape_product_listings (base_url : string)
    (custom_selectors : option (list string)) : M (list record) :=
  let products := [] in
  soup <- get_page base_url ;;
  match soup with
  | None => ret products
  | Some soup =>
      let selectors := selectors_or custom_selectors product_selectors in
      elements <- lift (select_first (fun found => found) soup selectors) ;;
      for_each "Error parsing product: " (product_item base_url) products
        (Py.slice_to (max_items self) elements)
  end.

(** ** [WebScraper.scrape_social_media_posts] *)

Definition social_selectors : list string :=
  [".tweet"; ".post"; ".status"; "[data-post]"; ".message"; ".update"].

(** [href=lambda x: x and '#' in str(x)]. *)
Definition hash_href (t : element) : bool :=
  match get t "href" with
  | Some h => negb (Py.is_empty h) && Py.contains_char "#" h
  | None => false
  end.

Definition social_item (base_url : string) (element : element)
    : outcome (list record) :=
  let content_element :=
    find element [".content"; ".text"; "p"; ".message-body"] in
  let content := text_or EmptyString content_element in
  let author_element :=
    find element [".author"; ".username"; ".user"; ".handle"] in
  let author := text_or EmptyString author_element in
  let time_element :=
    find element ["time"; ".timestamp"; ".date"; ".posted"] in
  let timestamp := stamp time_element in
  let likes_element := find element [".likes"; ".reactions"; ".hearts"] in
  let likes := text_or EmptyString likes_element in
  let hashtags :=
    map (fun tag => get_text EmptyString false (el tag))
      (filter hash_href (find_all element ["a"])) in
  Return [SocialRecord author (Py.take 300 content) timestamp likes
            (Py.join ", " hashtags) base_url].

Definition scrape_social_media_posts (base_url : string)
    (custom_selectors : option (list string)) : M (list record) :=
  let posts := [] in
  soup <- get_page base_url ;;
  match soup with
  | None => ret posts
  | Some soup =>
      let selectors := selectors_or custom_selectors social_selectors in
      elements <- lift (select_first (fun found => found) soup selectors) ;;
      for_each "Error parsing post: " (social_item base_url) posts
        (Py.slice_to (max_items self) elements)
  end.

(** ** [WebScraper.scrape_generic_content] *)

Definition generic_selectors : list string :=
  ["p"; "div"; "span"; "h1"; "h2"; "h3"; "li"; "td"].

(** [a or b] on two optional tags: a tag is always true. *)
Definition or_else (a b : option element) : option element :=
  match a with Some _ => a | None => b end.

Definition generic_item (base_url : string) (element : element)
    : outcome (list record) :=
  let text := get_text EmptyString true (el element) in
  if 20 <? String.length text then
    let link_element :=
      or_else (find element ["a"]) (find_parent element "a") in
    obind (resolve base_url link_element "href") (fun link =>
    let classes := Py.join " " (get_class element) in
    Return [GenericRecord (Py.take 500 text) link (tag_name element) classes
              base_url])
  else Return [].

Definition scrape_generic_content (base_url : string)
    (custom_selectors : option (list string)) : M (list record) :=
  let content := [] in
  soup <- get_page base_url ;;
  match soup with
  | None => ret content
  | Some soup =>
      let selectors := selectors_or custom_selectors generic_selectors in
      elements <-
        lift (select_first (Py.slice_to (max_items self)) soup selectors) ;;
      for_each "Error parsing content: " (generic_item base_url) content
        elements
  end.

(** ** [WebScraper.search_keywords_across_web] *)

(** The local variables of the traversal: the queue (its head is the next
    entry [q.get()] returns), the visited set, the results and the page
    counter.  The set is a list: the code only adds to it and tests
    membership. *)
Record crawl : Type := {
  q : list (string * Z);
  visited : list string;
  results : list record;
  pages_crawled : Z
}.

(** [url in visited]. *)
Definition mem (url : string) (visited : list string) : bool :=
  existsb (String.eqb url) visited.

(** [for kw in keywords: count = text.lower().count(kw.lower());
     if count > 0: results.append(...)]. *)
Fixpoint count_keywords (url text : string) (keywords : list string)
    (results : list record) : list record :=
  match keywords with
  | [] => results
  | kw :: rest =>
      let count := Py.count (Py.lower text) (Py.lower kw) in
      count_keywords url text rest
        (if 0 <? count then (results ++ [KeywordRecord url kw count])%list
         else results)
  end.

(** [soup.find_all('a', href=True)]. *)
Definition anchors (soup : node) : list element :=
  filter (fun a => match get a "href" with Some _ => true | None => false end)
    (find_all (root soup) ["a"]).

(** [a['href']]. *)
Definition href (a : element) : outcome string :=
  match get a "href" with
  | Some h => Return h
  | None => Raise "KeyError: 'href'"
  end.

(** [for a in ...: link = urljoin(url, a['href']); parsed = urlparse(link);
     if parsed.scheme in ('http', 'https') and link not in visited:
       q.put((link, depth + 1))]. *)
Fixpoint enqueue_links (url : string) (depth : Z) (visited : list string)
    (l : list element) (q : list (string * Z)) : outcome (list (string * Z)) :=
  match l with
  | [] => Return q
  | a :: rest =>
      obind (href a) (fun h =>
      obind (urljoin env url h) (fun link =>
      obind (parse link) (fun parsed =>
      enqueue_links url depth visited rest
        (if http_scheme (scheme parsed) && negb (mem link visited)
         then (q ++ [(link, (depth + 1)%Z)])%list else q))))
  end.

Section Traversal.

Variable keywords : list string.
Variable max_depth : Z.
Variable max_pages : Z.

(** [not q.empty() and pages_crawled < max_pages]. *)
Definition continues (st : crawl) : bool :=
  match q st with
  | [] => false
  | _ :: _ => (pages_crawled st <? max_pages)%Z
  end.

(** One turn of the [while] loop.  The loop tests [q.empty()] first, so the
    queue is not empty when [q.get()] is called. *)
Definition turn (st : crawl) : M crawl :=
  match q st with
  | [] => ret st
  | (url, depth) :: rest =>
      if mem url (visited st) || (max_depth <? depth)%Z then
        ret {| q := rest; visited := visited st; results := results st;
               pages_crawled := pages_crawled st |}
      else
        let visited := url :: visited st in
        emit (Visit url depth) ;;
        soup <- get_page url ;;
        match soup with
        | None =>
            ret {| q := rest; visited := visited; results := results st;
                   pages_crawled := pages_crawled st |}
        | Some soup =>
            let text := get_text " " true soup in
            let results := count_keywords url text keywords (results st) in
            q <- (if (depth <? max_depth)%Z
                  then lift (enqueue_links url depth visited (anchors soup) rest)
                  else ret rest) ;;
            ret {| q := q; visited := visited; results := results;
                   pages_crawled := (pages_crawled st + 1)%Z |}
        end
  end.

(** The [while] loop, run for at most [fuel] turns: [None] when the fuel
    runs out before the loop ends. *)
Fixpoint while (fuel : nat) (st : crawl) : option (M crawl) :=
  if continues st then
    match fuel with
    | O => None
    | S fuel' =>
        match turn st with
        | (Return st', t) =>
            match while fuel' st' with
            | Some (o, t') => Some (o, (t ++ t')%list)
            | None => None
            end
        | (Raise e, t) => Some (Raise e, t)
        end
    end
  else Some (ret st).

Definition start (start_urls : list string) : crawl :=
  {| q := map (fun url => (url, 0%Z)) start_urls; visited := [];
     results := []; pages_crawled := 0%Z |}.

Definition search_keywords_across_web (fuel : nat) (start_urls : list string)
    : option (M (list record)) :=
  match while fuel (start start_urls) with
  | Some m => Some (st <- m ;; ret (results st))
  | None => None
  end.

End Traversal.

End Scraper.

(** ** A small environment

    A CSS engine for the selectors of the default lists, a [urljoin] for
    absolute references and a site of a few pages.  The closed examples
    below run the scraper in it. *)

Module Sample.

(** The selectors of the default lists: a tag name, a class, an attribute,
    and a tag name with a substring of its class attribute. *)
Inductive simple_selector : Type :=
| ByType (t : string)
| ByClass (c : string)
| ByAttr (a : string)
| ByTypeClassPart (t v : string).

Definition ident_char (c : ascii) : bool :=
  is_alpha c || is_digit c || Ascii.eqb c "-" || Ascii.eqb c "_".

Definition is_ident (s : string) : bool :=
  negb (Py.is_empty s) && Py.forall_chars ident_char s.

(** [s] without its prefix [p], when it has it. *)
Definition after (p s : string) : option string :=
  if prefix p s then Some (Py.drop (String.length p) s) else None.

(** [s] without its suffix [p], when it has it. *)
Definition before (p s : string) : option string :=
  let n := String.length s - String.length p in
  if String.eqb (Py.drop n s) p then Some (Py.take n s) else None.

Definition compile (selector : string) : option simple_selector :=
  if is_ident selector then Some (ByType selector)
  else
    match after "." selector with
    | Some c => if is_ident c then Some (ByClass c) else None
    | None =>
        let i := Py.find_first (fun c => negb (ident_char c)) selector in
        let t := Py.take i selector in
        match after "[" (Py.drop i selector) with
        | Some r =>
            match before "]" r with
            | Some a =>
                if Py.is_empty t && is_ident a then Some (ByAttr a)
                else
                  match after ("class*=" ++ dq) a with
                  | Some v =>
                      match before dq v with
                      | Some v =>
                          if is_ident t && is_ident v
                          then Some (ByTypeClassPart t v) else None
                      | None => None
                      end
                  | None => None
                  end
            | None => None
            end
        | None => None
        end
    end.

Fixpoint is_substring (sub s : string) : bool :=
  prefix sub s
  || match s with
     | EmptyString => false
     | String _ s' => is_substring sub s'
     end.

Definition has_attr (a : string) (e : element) : bool :=
  if String.eqb a "class"
  then match el e with Tag _ (Some _) _ _ => true | _ => false end
  else match get e a with Some _ => true | None => false end.

Definition matches (sel : simple_selector) (e : element) : bool :=
  match sel with
  | ByType t => String.eqb (tag_name e) t
  | ByClass c => existsb (String.eqb c) (get_class e)
  | ByAttr a => has_attr a e
  | ByTypeClassPart t v =>
      String.eqb (tag_name e) t && has_attr "class" e
      && is_substring v (Py.join " " (get_class e))
  end.

(** [soup.select(selector)]: the matching tags in document order. *)
Definition engine (soup : node) (selector : string) : outcome (list element) :=
  match compile selector with
  | Some sel => Return (filter (matches sel) (descendants [] soup))
  | None => Raise "selector outside the sample engine"
  end.

(** [urljoin(base, url)] for a [url] that has a scheme of its own: it is
    parsed and returned as it is. *)
Definition join_absolute (base url : string) : outcome string :=
  match urlparse (fun _ => true) url with
  | Raise e => Raise e
  | Return p =>
      if Py.is_empty (scheme p)
      then Raise "relative reference outside the sample urljoin"
      else Return url
  end.

Fixpoint repeat_char (c : ascii) (n : nat) : string :=
  match n with
  | O => EmptyString
  | S n' => String c (repeat_char c n')
  end.

(** A page of the site: its address, its markup and the tree the parser
    builds from the markup. *)
Record page : Type := {
  address : string;
  markup : string;
  tree : node
}.

Definition document (contents : list node) : node :=
  Tag "[document]" None [] contents.

Definition cats : page :=
  {| address := "https://x.test";
     markup := "<p>cat dog cat</p>";
     tree := document [Tag "p" None [] [NavigableString "cat dog cat"]] |}.

Definition short_span : page :=
  {| address := "https://x.test/span";
     markup := "<span>hi</span>";
     tree := document [Tag "span" None [] [NavigableString "hi"]] |}.

(** A paragraph of 20 characters and one of 21. *)
Definition two_paragraphs : page :=
  {| address := "https://x.test/paragraphs";
     markup := "<p>abcdefghijklmnopqrst</p><p>abcdefghijklmnopqrstu</p>";
     tree := document
       [Tag "p" None [] [NavigableString "abcdefghijklmnopqrst"];
        Tag "p" None [] [NavigableString "abcdefghijklmnopqrstu"]] |}.

(** A news item with 501 letters in its heading and 250 in its paragraph. *)
Definition long_news : page :=
  {| address := "https://x.test/news";
     markup := "<div class='news-item'><h2>" ++ repeat_char "a" 501
               ++ "</h2><p>" ++ repeat_char "b" 250 ++ "</p></div>";
     tree := document
       [Tag "div" (Some ["news-item"]) []
          [Tag "h2" None [] [NavigableString (repeat_char "a" 501)];
           Tag "p" None [] [NavigableString (repeat_char "b" 250)]]] |}.

(** A product whose name has 501 letters. *)
Definition long_product : page :=
  {| address := "https://x.test/product";
     markup := "<div class='product'><h2>" ++ repeat_char "a" 501
               ++ "</h2></div>";
     tree := document
       [Tag "div" (Some ["product"]) []
          [Tag "h2" None [] [NavigableString (repeat_char "a" 501)]]] |}.

(** A post of 301 letters. *)
Definition long_post : page :=
  {| address := "https://x.test/post";
     markup := "<div class='status'><p>" ++ repeat_char "c" 301
               ++ "</p></div>";
     tree := document
       [Tag "div" (Some ["status"]) []
          [Tag "p" None [] [NavigableString (repeat_char "c" 301)]]] |}.

(** A paragraph of 501 letters. *)
Definition long_paragraph : page :=
  {| address := "https://x.test/paragraph";
     markup := "<p>" ++ repeat_char "d" 501 ++ "</p>";
     tree := document
       [Tag "p" None [] [NavigableString (repeat_char "d" 501)]] |}.

(** A page with a link to itself and one to another page. *)
Definition linked : page :=
  {| address := "https://x.test/linked";
     markup := "<p>Category cat</p><a href='https://x.test/linked'>here</a>"
               ++ "<a href='https://x.test/more'>more</a>";
     tree := document
       [Tag "p" None [] [NavigableString "Category cat"];
        Tag "a" None [("href", "https://x.test/linked")]
          [NavigableString "here"];
        Tag "a" None [("href", "https://x.test/more")]
          [NavigableString "more"]] |}.

Definition more : page :=
  {| address := "https://x.test/more";
     markup := "<p>a cat</p><a href='https://x.test/linked'>back</a>";
     tree := document
       [Tag "p" None [] [NavigableString "a cat"];
        Tag "a" None [("href", "https://x.test/linked")]
          [NavigableString "back"]] |}.

Definition site : list page :=
  [cats; short_span; two_paragraphs; long_news; long_product; long_post;
   long_paragraph; linked; more].

(** A request is answered with status 200 and the markup of the page when
    the site has the address, with status 404 when it has not; the request
    for [https://x.test/slow] times out. *)
Definition site_get (url : string) : outcome Response :=
  if String.eqb url "https://x.test/slow" then Raise "Read timed out"
  else
    match List.find (fun p => String.eqb (address p) url) site with
    | Some p => Return {| status_code := 200; content := markup p |}
    | None => Return {| status_code := 404; content := "Not Found" |}
    end.

Definition site_parser (body : string) : outcome node :=
  match List.find (fun p => String.eqb (markup p) body) site with
  | Some p => Return (tree p)
  | None => Return (document [NavigableString body])
  end.

(** The robots file of [x.test] cannot be read; elsewhere everything is
    allowed. *)
Definition site_robots (robots_url url : string) : outcome bool :=
  if String.eqb robots_url "https://x.test/robots.txt"
  then Raise "URLError"
  else Return true.

(** The clock takes every pause whose nanoseconds fit 64 bits. *)
Definition site_clock (seconds : Q) : outcome unit :=
  if Qle_bool (9223372036854775808 # 1000000000) seconds
  then Raise "timestamp too large to convert to C _PyTime_t"
  else Return tt.

Definition env : Env :=
  {| bracketed_netloc_ok := fun _ => true;
     urljoin := join_absolute;
     robots_can_fetch := site_robots;
     session_get := site_get;
     html_parser := site_parser;
     clock_sleep := site_clock;
     select := engine |}.

(** The elements of a page that a selector matches. *)
Definition matched (pg : page) (selector : string) : list element :=
  match engine (tree pg) selector with
  | Return l => l
  | Raise _ => []
  end.

(** A scraper as the interface builds it, and one that ignores robots. *)
Definition polite : WebScraper :=
  {| delay := 1.5; respect_robots := true; max_items := 25 |}.

Definition direct : WebScraper :=
  {| delay := 1; respect_robots := false; max_items := 20 |}.

End Sample.

(** ** The vocabulary of the properties *)

(** The robots file of [url] cannot be consulted: with the message [e], the
    address does not parse, or reading and evaluating the file raises. *)
Inductive robots_failure (env : Env) (url e : string) : Prop :=
| robots_bad_url :
    parse env url = Raise e -> robots_failure env url e
| robots_unreadable (p : ParseResult) :
    parse env url = Return p ->
    robots_can_fetch env
      (scheme p ++ "://" ++ netloc p ++ "/robots.txt") url = Raise e ->
    robots_failure env url e.

(** An event that [get_page url] may cause. *)
Definition of_get_page (url : string) (ev : event) : Prop :=
  match ev with
  | HttpGet u => u = url
  | Visit _ _ => False
  | _ => True
  end.

(** The four extraction profiles, and the extractor of each as the
    interface calls it. *)
Inductive profile : Type := News | Product | Social | Generic.

Definition scrape (env : Env) (self : WebScraper) (p : profile)
    : string -> option (list string) -> M (list record) :=
  match p with
  | News => scrape_news_articles env self
  | Product => scrape_product_listings env self
  | Social => scrape_social_media_posts env self
  | Generic => scrape_generic_content env self
  end.

Definition default_selectors (p : profile) : list string :=
  match p with
  | News => news_selectors
  | Product => product_selectors
  | Social => social_selectors
  | Generic => generic_selectors
  end.

Definition item (env : Env) (p : profile)
    : string -> element -> outcome (list record) :=
  match p with
  | News => news_item env
  | Product => product_item env
  | Social => social_item
  | Generic => generic_item env
  end.

(** The records an element contributes: those of the loop body, none when
    the body raises. *)
Definition yield (env : Env) (p : profile) (base_url : string) (e : element)
    : list record :=
  match item env p base_url e with
  | Return rs => rs
  | Raise _ => []
  end.

(** The loop body of a profile appends a record for the element: resolving
    its links raises nothing and, for the generic profile, its stripped text
    has more than 20 characters. *)
Definition extracts (env : Env) (p : profile) (base_url : string)
    (e : element) : Prop :=
  match p with
  | News => exists l, resolve env base_url (find e ["a"]) "href" = Return l
  | Product =>
      (exists l, resolve env base_url (find e ["a"]) "href" = Return l)
      /\ (exists i, resolve env base_url (find e ["img"]) "src" = Return i)
  | Social => True
  | Generic =>
      20 < String.length (get_text EmptyString true (el e))
      /\ exists l,
           resolve env base_url
             (or_else (find e ["a"]) (find_parent e "a")) "href" = Return l
  end.

(** The lengths the extractors bound: the summary of a news record, the
    content of a post, the text of a generic record. *)
Definition bounded (r : record) : Prop :=
  match r with
  | NewsRecord _ _ summary _ _ _ => String.length summary <= 200
  | SocialRecord _ content _ _ _ _ => String.length content <= 300
  | GenericRecord text _ _ _ _ => String.length text <= 500
  | ProductRecord _ _ _ _ _ _ _ => True
  | KeywordRecord _ _ _ => True
  end.

(** The addresses requested in a trace, and the visits marked in it. *)
Fixpoint gets (t : trace) : list string :=
  match t with
  | [] => []
  | HttpGet u :: t' => u :: gets t'
  | _ :: t' => gets t'
  end.

Fixpoint visits (t : trace) : list (string * Z) :=
  match t with
  | [] => []
  | Visit u d :: t' => (u, d) :: visits t'
  | _ :: t' => visits t'
  end.

(** The keyword records of a visited address: those of its page when the
    fetch succeeds. *)
Definition page_records (env : Env) (self : WebScraper)
    (keywords : list string) (url : string) : list record :=
  match fst (get_page env self url) with
  | Return (Some soup) =>
      count_keywords url (get_text " " true soup) keywords []
  | _ => []
  end.

(** [sub] occurs in [s] at position [p]. *)
Definition occurs_at (sub s : string) (p : nat) : Prop :=
  p + String.length sub <= String.length s
  /\ substring p (String.length sub) s = sub.

(** Positions from [lo] on, each at least [gap] after the one before. *)
Fixpoint spaced (gap lo : nat) (ps : list nat) : Prop :=
  match ps with
  | [] => True
  | p :: ps' => lo <= p /\ spaced gap (p + gap) ps'
  end.

(** Occurrences of [sub] in [s] that do not overlap: increasing positions,
    each occurrence starting where the one before it has ended. *)
Definition non_overlapping (sub s : string) (ps : list nat) : Prop :=
  spaced (Nat.max 1 (String.length sub)) 0 ps
  /\ Forall (occurs_at sub s) ps.

(** [n] is the number of non-overlapping occurrences of [sub] in [s]: some
    choice of them has [n] members and none has more. *)
Definition occurrences (sub s : string) (n : nat) : Prop :=
  (exists ps, non_overlapping sub s ps /\ List.length ps = n)
  /\ (forall ps, non_overlapping sub s ps -> List.length ps <= n).

(** ** Occurrences without regard to case *)

(** A capital letter: A to Z and, in Latin-1, the letters from 192 to 222
    (215 is the multiplication sign).  Its small letter stands 32 places
    after it. *)
Definition capital (c : ascii) : bool :=
  let n := Py.code c in
  ((65 <=? n) && (n <=? 90))
  || ((192 <=? n) && (n <=? 222) && negb (n =? 215)).

(** The same letter, capital or small. *)
Definition same_letter (c d : ascii) : bool :=
  Ascii.eqb c d
  || (capital c && (Py.code d =? Py.code c + 32))
  || (capital d && (Py.code c =? Py.code d + 32)).

(** The same text, letter for letter, whatever the case of each. *)
Fixpoint same_text (a b : string) : bool :=
  match a, b with
  | EmptyString, EmptyString => true
  | String c a', String d b' => same_letter c d && same_text a' b'
  | _, _ => false
  end.

(** [sub] occurs in [s] at position [p], the case of the letters set
    aside. *)
Definition occurs_caseless_at (sub s : string) (p : nat) : Prop :=
  p + String.length sub <= String.length s
  /\ same_text (substring p (String.length sub) s) sub = true.

(** [n] is the number of non-overlapping occurrences of [sub] in [s], the
    case of the letters set aside. *)
Definition caseless_occurrences (sub s : string) (n : nat) : Prop :=
  (exists ps,
     spaced (Nat.max 1 (String.length sub)) 0 ps
     /\ Forall (occurs_caseless_at sub s) ps
     /\ List.length ps = n)
  /\ (forall ps,
        spaced (Nat.max 1 (String.length sub)) 0 ps ->
        Forall (occurs_caseless_at sub s) ps ->
        List.length ps <= n).

(** The 256 characters. *)
Definition all_chars : list ascii := map ascii_of_nat (seq 0 256).

(** ** More vocabulary: the records as dictionaries, the logs, the budget *)

(** The value of the ['type'] key of a record. *)
Definition type_of (r : record) : string :=
  match r with
  | NewsRecord _ _ _ _ _ _ => "news"
  | ProductRecord _ _ _ _ _ _ _ => "product"
  | SocialRecord _ _ _ _ _ _ => "social"
  | GenericRecord _ _ _ _ _ => "generic"
  | KeywordRecord _ _ _ => "keyword_search"
  end.

(** The string-valued keys of the dictionary a record stands for (the
    ['count'] of a keyword record is an integer). *)
Definition fields (r : record) : list (string * string) :=
  match r with
  | NewsRecord title link summary date author source =>
      [("title", title); ("link", link); ("summary", summary);
       ("date", date); ("author", author); ("source", source);
       ("type", "news")]
  | ProductRecord name price rating link image availability source =>
      [("name", name); ("price", price); ("rating", rating); ("link", link);
       ("image", image); ("availability", availability);
       ("source", source); ("type", "product")]
  | SocialRecord author content timestamp likes hashtags source =>
      [("author", author); ("content", content); ("timestamp", timestamp);
       ("likes", likes); ("hashtags", hashtags); ("source", source);
       ("type", "social")]
  | GenericRecord text link tag classes source =>
      [("text", text); ("link", link); ("tag", tag); ("classes", classes);
       ("source", source); ("type", "generic")]
  | KeywordRecord url keyword _ =>
      [("url", url); ("keyword", keyword); ("type", "keyword_search")]
  end.

(** [item.get(key)]. *)
Definition field (r : record) (key : string) : option string :=
  assoc key (fields r).

(** The ['type'] of the records of a profile, and the prefix of the error
    its extractor logs for an element. *)
Definition profile_type (p : profile) : string :=
  match p with
  | News => "news"
  | Product => "product"
  | Social => "social"
  | Generic => "generic"
  end.

Definition label (p : profile) : string :=
  match p with
  | News => "Error parsing article: "
  | Product => "Error parsing product: "
  | Social => "Error parsing post: "
  | Generic => "Error parsing content: "
  end.

(** The errors logged for the elements whose loop body raises. *)
Definition failure_logs (env : Env) (p : profile) (base_url : string)
    (elements : list element) : trace :=
  flat_map
    (fun e =>
       match item env p base_url e with
       | Raise msg => [Log ERROR (label p ++ msg)]
       | Return _ => []
       end)
    elements.

(** [get_page] returns a page for the address. *)
Definition fetched (env : Env) (self : WebScraper) (url : string) : bool :=
  match fst (get_page env self url) with
  | Return (Some _) => true
  | _ => false
  end.

(** An entry of the queue is a seed at depth 0 or, deeper, an address that
    parses with the scheme [http] or [https]. *)
Definition seed_or_link (env : Env) (start_urls : list string)
    (e : string * Z) : Prop :=
  (snd e = 0%Z /\ In (fst e) start_urls)
  \/ ((0 < snd e)%Z
      /\ exists p, parse env (fst e) = Return p
                   /\ http_scheme (scheme p) = true).

(** The depths of a queue in breadth-first order: they do not decrease and
    none exceeds the first by more than one. *)
Fixpoint level_order (lo : Z) (ds : list Z) (hi : Z) : Prop :=
  match ds with
  | [] => True
  | d :: ds' => (lo <= d <= hi)%Z /\ level_order d ds' hi
  end.

(** With the message [msg], the fetch of an allowed address fails: the
    request raises, the status is an error, the parser raises, or the pause
    raises, its length being negative or more than the clock takes. *)
Inductive fetch_failure (env : Env) (self : WebScraper) (url : string)
    : string -> Prop :=
| request_fails (e : string) :
    session_get env url = Raise e -> fetch_failure env self url e
| status_fails (r : Response) (e : string) :
    session_get env url = Return r ->
    raise_for_status r = Raise e -> fetch_failure env self url e
| parser_fails (r : Response) (e : string) :
    session_get env url = Return r ->
    raise_for_status r = Return tt ->
    html_parser env (content r) = Raise e -> fetch_failure env self url e
| pause_fails (r : Response) (soup : node) (e : string) :
    session_get env url = Return r ->
    raise_for_status r = Return tt ->
    html_parser env (content r) = Return soup ->
    time_sleep env (delay self) = Raise e -> fetch_failure env self url e.

(** Depths that never decrease, from [lo] on. *)
Fixpoint nondecreasing (lo : Z) (ds : list Z) : Prop :=
  match ds with
  | [] => True
  | d :: ds' => (lo <= d)%Z /\ nondecreasing d ds'
  end.

(** A queue in breadth-first order: its depths do not decrease and none
    exceeds the depth of the head by more than one. *)
Definition bfs_queue (q : list (string * Z)) : Prop :=
  match q with
  | [] => True
  | (_, d) :: _ => level_order d (map snd q) (d + 1)
  end.

(** ** The interface: what [WebScraperGUI] computes from its widgets *)

Module Gui.

(** [s.split(sep)] for a separator of one character. *)
Fixpoint split (sep : ascii) (s : string) : list string :=
  match s with
  | EmptyString => [EmptyString]
  | String c s' =>
      if Ascii.eqb c sep then EmptyString :: split sep s'
      else
        match split sep s' with
        | piece :: rest => String c piece :: rest
        | [] => [String c EmptyString]
        end
  end.

Definition newline : ascii := ascii_of_nat 10.

(** [line and not line.startswith('#')]. *)
Definition selector_line (line : string) : bool :=
  negb (Py.is_empty line) && negb (prefix "#" line).

(** [WebScraperGUI.get_custom_selectors], from the content of the selector
    box. *)
Definition get_custom_selectors (content : string) : list string :=
  let selectors_text := Py.strip content in
  if Py.is_empty selectors_text then []
  else filter selector_line (map Py.strip (split newline selectors_text)).

(** The keywords of [scrape_data], from the content of the keyword entry:
    [[w.strip() for w in entry.split(',') if w.strip()]]. *)
Definition keywords_of (entry : string) : list string :=
  filter (fun w => negb (Py.is_empty w)) (map Py.strip (split "," entry)).

(** The test of the address in [start_scraping], from the content of the
    address entry: the stripped address is not empty and parses with a
    scheme and a network location. *)
Definition start_scraping_accepts (env : Env) (entry : string) : bool :=
  let url := Py.strip entry in
  if Py.is_empty url then false
  else
    match parse env url with
    | Return parsed =>
        negb (Py.is_empty (scheme parsed) || Py.is_empty (netloc parsed))
    | Raise _ => false
    end.

(** The counters of [show_statistics].  A dictionary of counters is the
    list of its items in the order of insertion; the average, a float, is
    not computed here. *)
Record stats : Type := {
  total_items : nat;
  data_types : list (string * nat);
  sources : list (string * nat);
  items_with_links : nat;
  text_lengths : list nat
}.

(** [d[k] = d.get(k, 0) + 1]. *)
Fixpoint bump (k : string) (d : list (string * nat)) : list (string * nat) :=
  match d with
  | [] => [(k, 1)]
  | (k', n) :: d' =>
      if String.eqb k k' then (k', S n) :: d' else (k', n) :: bump k d'
  end.

(** [item.get(key, default)]. *)
Definition get_or (item : record) (key default : string) : string :=
  match field item key with
  | Some v => v
  | None => default
  end.

(** The truth of [item.get(key)]. *)
Definition has (item : record) (key : string) : bool :=
  match field item key with
  | Some v => negb (Py.is_empty v)
  | None => false
  end.

(** [a or b] on strings. *)
Definition or_string (a b : string) : string :=
  if Py.is_empty a then b else a.

(** The body of the loop over the scraped items. *)
Definition tally (st : stats) (item : record) : stats :=
  let item_type := get_or item "type" "unknown" in
  let source := get_or item "source" "unknown" in
  let text_content :=
    or_string (get_or item "text" EmptyString)
      (or_string (get_or item "content" EmptyString)
         (or_string (get_or item "title" EmptyString)
            (get_or item "name" EmptyString))) in
  {| total_items := total_items st;
     data_types := bump item_type (data_types st);
     sources := bump source (sources st);
     items_with_links :=
       if has item "link" || has item "url"
       then S (items_with_links st) else items_with_links st;
     text_lengths :=
       if Py.is_empty text_content then text_lengths st
       else (text_lengths st ++ [String.length text_content])%list |}.

(** [WebScraperGUI.show_statistics]: [None] when there is no data and the
    warning is shown. *)
Definition show_statistics (scraped_data : list record) : option stats :=
  match scraped_data with
  | [] => None
  | _ :: _ =>
      Some (fold_left tally scraped_data
              {| total_items := List.length scraped_data; data_types := [];
                 sources := []; items_with_links := 0; text_lengths := [] |})
  end.

End Gui.

(** ** A second small site: a shop with a broken link *)

Module Shop.

(** Two products; the link of the first does not parse. *)
Definition listing : Sample.page :=
  {| Sample.address := "https://shop.test";
     Sample.markup :=
       "<div class='product'><h2>Lamp</h2><a href='http://['>buy</a></div>"
       ++ "<div class='product'><h2>Desk</h2>"
       ++ "<a href='https://shop.test/desk'>buy</a></div>";
     Sample.tree :=
       Sample.document
         [Tag "div" (Some ["product"]) []
            [Tag "h2" None [] [NavigableString "Lamp"];
             Tag "a" None [("href", "http://[")] [NavigableString "buy"]];
          Tag "div" (Some ["product"]) []
            [Tag "h2" None [] [NavigableString "Desk"];
             Tag "a" None [("href", "https://shop.test/desk")]
               [NavigableString "buy"]]] |}.

Definition shop_get (url : string) : outcome Response :=
  if String.eqb url (Sample.address listing)
  then Return {| status_code := 200; content := Sample.markup listing |}
  else Return {| status_code := 404; content := "Not Found" |}.

Definition shop_parser (body : string) : outcome node :=
  if String.eqb body (Sample.markup listing)
  then Return (Sample.tree listing)
  else Return (Sample.document [NavigableString body]).

Definition env : Env :=
  {| bracketed_netloc_ok := fun _ => true;
     urljoin := Sample.join_absolute;
     robots_can_fetch := fun _ _ => Return true;
     session_get := shop_get;
     html_parser := shop_parser;
     clock_sleep := Sample.site_clock;
     select := Sample.engine |}.

End Shop.

(** ** The first site while its server fails *)

Module Outage.

(** Every request for a robots file is answered with the status 503. *)
Definition outage_urlopen (robots_url : string) : urlopen_result :=
  HTTPError 503.

Definition env : Env :=
  {| bracketed_netloc_ok := fun _ => true;
     urljoin := Sample.join_absolute;
     robots_can_fetch :=
       robot_file_parser outage_urlopen (fun _ _ => Return true);
     session_get := Sample.site_get;
     html_parser := Sample.site_parser;
     clock_sleep := Sample.site_clock;
     select := Sample.engine |}.

End Outage.

(** * Properties *)

(** ** The fetch path *)

(** A pause that is taken is not negative; a negative one raises. *)
Lemma time_sleep_returns (env : Env) (seconds : Q) (u : unit) :
  time_sleep env seconds = Return u -> Qle_bool 0 seconds = true.
Proof.
  unfold time_sleep. destruct (Qle_bool 0 seconds); [reflexivity |].
  destruct (Qle_bool _ seconds); discriminate.
Qed.

Lemma time_sleep_negative (env : Env) (seconds : Q) :
  Qle_bool 0 seconds = false -> exists e, time_sleep env seconds = Raise e.
Proof.
  unfold time_sleep. intros ->. destruct (Qle_bool _ seconds); eauto.
Qed.

Section FetchPath.

Variable env : Env.
Variable self : WebScraper.

Lemma can_fetch_returns (url : string) :
  exists b, fst (can_fetch env self url) = Return b.
Proof.
  unfold can_fetch.
  destruct (respect_robots self); simpl; [| now exists true].
  destruct (parse env url) as [p | e]; simpl; [| now exists true].
  destruct (robots_can_fetch env _ url) as [b | e]; simpl.
  - now exists b.
  - now exists true.
Qed.

(** The only network request of [can_fetch] is the one for the robots
    file. *)
Lemma can_fetch_trace (url : string) (ev : event) :
  In ev (snd (can_fetch env self url)) ->
  (exists r, ev = RobotsRead r) \/ (exists m, ev = Log WARNING m).
Proof.
  unfold can_fetch.
  destruct (respect_robots self); simpl; [| tauto].
  destruct (parse env url) as [p | e]; simpl.
  - destruct (robots_can_fetch env _ url) as [b | e]; simpl;
      intuition (subst; eauto).
  - intuition (subst; eauto).
Qed.

(** When nothing before the request raises, [get_page] returns: a failed
    request, an error status, a parse error and a failed pause all end in
    [None]. *)
Lemma get_page_returns (url : string) (p : ParseResult) :
  parse env url = Return p ->
  exists r, fst (get_page env self url) = Return r.
Proof.
  intros Hp. unfold get_page. rewrite Hp. simpl.
  destruct (http_scheme (scheme p)); simpl; [| now exists None].
  destruct (can_fetch_returns url) as [b Hb].
  destruct (can_fetch env self url) as [o t]. simpl in Hb. subst o.
  destruct b; simpl; [| now exists None].
  destruct (session_get env url) as [r | e]; simpl; [| now exists None].
  destruct (raise_for_status r) as [[] | e]; simpl; [| now exists None].
  destruct (html_parser env (content r)) as [soup | e]; simpl;
    [| now exists None].
  unfold sleep. destruct (time_sleep env (delay self)); simpl; eauto.
Qed.

(** What [get_page] does for the address it is given: its requests are for
    the robots file and for [url] itself, and it marks no visit. *)
Lemma get_page_trace (url : string) (ev : event) :
  In ev (snd (get_page env self url)) -> of_get_page url ev.
Proof.
  unfold get_page.
  destruct (parse env url) as [p | e]; simpl; [| tauto].
  destruct (http_scheme (scheme p)); simpl;
    [| intros [<- | []]; exact I].
  pose proof (can_fetch_trace url) as Hc.
  destruct (can_fetch env self url) as [[b | e] t]; simpl in *.
  - assert (Ht : forall ev, In ev t -> of_get_page url ev).
    { intros ev' Hin. destruct (Hc ev' Hin) as [[r ->] | [m ->]]; exact I. }
    destruct b; simpl;
      [ destruct (session_get env url) as [r | e]; simpl;
        [ destruct (raise_for_status r) as [[] | e]; simpl;
          [ destruct (html_parser env (content r)) as [soup | e]; simpl;
            [ unfold sleep;
              destruct (time_sleep env (delay self)) eqn:Hpause; simpl
            | ]
          | ]
        | ]
      | ];
      intros Hin; apply in_app_or in Hin; destruct Hin as [Hin | Hin];
      auto; simpl in Hin;
      repeat (destruct Hin as [<- | Hin]; [now simpl |]); now destruct Hin.
  - intros Hin. destruct (Hc ev Hin) as [[r ->] | [m ->]]; exact I.
Qed.

End FetchPath.

(** C7, as the code has it.  With robots-respect enabled, when consulting
    the robots file raises, because the address does not parse or because
    retrieving, decoding or evaluating the file raises, whatever the error,
    [can_fetch] returns [True] and logs a warning that names the address
    and the error.  A robots file answered with an HTTP error status raises
    nothing in [can_fetch]: [RobotFileParser] takes the status for the
    answer, and [can_fetch] returns it with no warning, [True] for the
    codes from 400 to 499 other than 401 and 403, [False] for 401, 403 and
    every other code. *)
Theorem can_fetch_allows_on_robots_failure
    (env : Env) (self : WebScraper) (url : string) :
  respect_robots self = true ->
  (forall e,
      robots_failure env url e ->
      fst (can_fetch env self url) = Return true
      /\ In (Log WARNING
               ("Could not check robots.txt for " ++ url ++ ": " ++ e))
            (snd (can_fetch env self url)))
  /\ (forall urlopen rules p code,
        robots_can_fetch env = robot_file_parser urlopen rules ->
        parse env url = Return p ->
        urlopen (scheme p ++ "://" ++ netloc p ++ "/robots.txt")
        = HTTPError code ->
        exists b,
          can_fetch env self url
          = (Return b,
             [RobotsRead (scheme p ++ "://" ++ netloc p ++ "/robots.txt")])
          /\ (b = true
              <-> (400 <= code < 500)%Z /\ code <> 401%Z /\ code <> 403%Z)).
Proof.
  intros Hr. split.
  - intros e Hf. unfold can_fetch. rewrite Hr.
    destruct Hf as [Hp | p Hp Hread]; rewrite Hp.
    + split; [reflexivity | now left].
    + cbv beta iota zeta delta [lift emit bind try_except]. rewrite Hread.
      split; [reflexivity | right; now left].
  - intros urlopen rules p code Henv Hp Hopen. unfold can_fetch.
    rewrite Hr, Hp, Henv. unfold robot_file_parser.
    cbv beta iota zeta delta [lift emit bind try_except negb].
    rewrite Hopen.
    destruct (code =? 401)%Z eqn:H1; [| destruct (code =? 403)%Z eqn:H3];
      cbv beta iota delta [orb].
    + exists false. split; [reflexivity |]. apply Z.eqb_eq in H1.
      split; [discriminate | lia].
    + exists false. split; [reflexivity |]. apply Z.eqb_eq in H3.
      split; [discriminate | lia].
    + apply Z.eqb_neq in H1, H3.
      destruct ((400 <=? code) && (code <? 500))%Z eqn:H4.
      * exists true. split; [reflexivity |].
        apply andb_true_iff in H4 as [Hlo Hhi].
        apply Z.leb_le in Hlo. apply Z.ltb_lt in Hhi. tauto.
      * exists false. split; [reflexivity |].
        split; [discriminate |]. intros [[Hlo Hhi] _].
        apply Z.leb_le in Hlo. apply Z.ltb_lt in Hhi.
        rewrite Hlo, Hhi in H4. discriminate.
Qed.

(** Two robots files: that of [x.test] cannot be retrieved, and the
    request raises; that of the failing server is answered 503, and nothing
    is raised. *)
Lemma can_fetch_allows_on_robots_failure_witness :
  (fst (can_fetch Sample.env Sample.polite "https://x.test/linked")
   = Return true
   /\ In (Log WARNING
            "Could not check robots.txt for https://x.test/linked: URLError")
         (snd (can_fetch Sample.env Sample.polite "https://x.test/linked")))
  /\ exists b,
       can_fetch Outage.env Sample.polite "https://x.test"
       = (Return b, [RobotsRead "https://x.test/robots.txt"])
       /\ (b = true
           <-> (400 <= 503 < 500)%Z /\ 503%Z <> 401%Z /\ 503%Z <> 403%Z).
Proof.
  split.
  - apply (proj1 (can_fetch_allows_on_robots_failure Sample.env Sample.polite
                    "https://x.test/linked" eq_refl) "URLError").
    apply robots_unreadable
      with (p := {| scheme := "https"; netloc := "x.test" |});
      reflexivity.
  - apply (proj2 (can_fetch_allows_on_robots_failure Outage.env Sample.polite
                    "https://x.test" eq_refl)
             Outage.outage_urlopen (fun _ _ => Return true)
             {| scheme := "https"; netloc := "x.test" |} 503%Z);
      reflexivity.
Defined.

(** C7 as stated fails for a robots file that the server answers with the
    status 503.  The file cannot be retrieved, yet nothing is raised:
    [can_fetch] returns [False] and logs no warning, and [get_page] gives
    the page up without a request. *)
Lemma can_fetch_denies_on_robots_server_error :
  respect_robots Sample.polite = true
  /\ Outage.outage_urlopen "https://x.test/robots.txt" = HTTPError 503
  /\ can_fetch Outage.env Sample.polite "https://x.test"
     = (Return false, [RobotsRead "https://x.test/robots.txt"])
  /\ get_page Outage.env Sample.polite "https://x.test"
     = (Return None,
        [RobotsRead "https://x.test/robots.txt";
         Log WARNING "Robots.txt disallows fetching https://x.test"]).
Proof. repeat split. Qed.

(** C5, as the code has it.  For every address whose scheme is neither
    [http] nor [https], [get_page] returns [None] and does nothing but log
    the unsafe scheme: it asks [can_fetch] nothing, reads no robots file and
    sends no request.  The test of the scheme is made by [get_page];
    [can_fetch] does not look at the scheme. *)
Theorem get_page_blocks_unsafe_scheme
    (env : Env) (self : WebScraper) (url : string) (p : ParseResult) :
  parse env url = Return p ->
  http_scheme (scheme p) = false ->
  get_page env self url
  = (Return None,
     [Log ERROR ("Blocked potentially unsafe URL scheme: " ++ scheme p)]).
Proof.
  intros Hp Hs. unfold get_page. rewrite Hp. simpl. rewrite Hs. reflexivity.
Qed.

Lemma get_page_blocks_unsafe_scheme_witness :
  get_page Sample.env Sample.polite "ftp://h/x"
  = (Return None, [Log ERROR "Blocked potentially unsafe URL scheme: ftp"]).
Proof.
  apply (get_page_blocks_unsafe_scheme Sample.env Sample.polite "ftp://h/x"
           {| scheme := "ftp"; netloc := "h" |}); reflexivity.
Defined.

(** C5 as stated fails for [can_fetch]: the scheme of [ftp://h/x] is [ftp],
    and a scraper that does not respect robots gets [True] from [can_fetch]
    for it. *)
Lemma can_fetch_ignores_scheme :
  parse Sample.env "ftp://h/x" = Return {| scheme := "ftp"; netloc := "h" |}
  /\ http_scheme "ftp" = false
  /\ respect_robots Sample.direct = false
  /\ can_fetch Sample.env Sample.direct "ftp://h/x" = (Return true, []).
Proof. repeat split. Qed.

(** A direct call with an address that [urlparse] refuses, such as
    [http://[] with its unmatched bracket: [get_page] calls [urlparse]
    outside its [try], and the error leaves [get_page] and every extractor
    that starts with it.  The interface and the traversal pass no such
    address. *)
Lemma get_page_raises_on_unmatched_bracket
    (env : Env) (self : WebScraper) (p : profile)
    (custom_selectors : option (list string)) :
  get_page env self "http://[" = (Raise "Invalid IPv6 URL", [])
  /\ scrape env self p "http://[" custom_selectors
     = (Raise "Invalid IPv6 URL", []).
Proof. split; [reflexivity | destruct p; reflexivity]. Qed.

(** ** The extractors *)

Lemma fst_bind {A B : Type} (m : M A) (f : A -> M B) :
  fst (bind m f)
  = match fst m with
    | Return a => fst (f a)
    | Raise e => Raise e
    end.
Proof.
  destruct m as [[a | e] t]; simpl; [| reflexivity].
  now destruct (f a).
Qed.

Lemma take_length (n : nat) (s : string) : String.length (Py.take n s) <= n.
Proof.
  revert s. induction n as [| n IH]; intros [| c s]; simpl; try lia.
  specialize (IH s). lia.
Qed.

Section Extractors.

Variable env : Env.
Variable self : WebScraper.

(** The selector loop stops at the first selector that finds an element:
    the selectors after it are not consulted. *)
Lemma select_first_commits (keep : list element -> list element)
    (soup : node) (pre : list string) (sel : string) (post : list string)
    (found : list element) :
  (forall s, In s pre -> select env soup s = Return []) ->
  select env soup sel = Return found ->
  found <> [] ->
  select_first env keep soup (pre ++ sel :: post) = Return (keep found).
Proof.
  intros Hpre Hsel Hne. induction pre as [| s pre IH]; simpl.
  - rewrite Hsel. destruct found; [contradiction | reflexivity].
  - rewrite (Hpre s (or_introl eq_refl)). apply IH.
    intros s' Hin. apply Hpre. now right.
Qed.

(** Whatever the loop returns was found by one of the selectors, and kept. *)
Lemma select_first_found (keep : list element -> list element)
    (soup : node) (selectors : list string) (elements : list element) :
  select_first env keep soup selectors = Return elements ->
  elements = []
  \/ exists sel found, In sel selectors
       /\ select env soup sel = Return found /\ elements = keep found.
Proof.
  induction selectors as [| s l IH]; simpl.
  - intros [= <-]. now left.
  - destruct (select env soup s) as [[| e found] | err] eqn:Hs; [| | easy].
    + intros H. destruct (IH H) as [-> | (sel & found & Hin & Hsel & ->)];
        [now left | right; exists sel, found; auto].
    + intros [= <-]. right. exists s, (e :: found). auto.
Qed.

(** The loop over the elements returns the records of the bodies that did
    not raise, in order. *)
Lemma for_each_yields (label : string)
    (body : element -> outcome (list record)) (elements : list element) :
  forall items,
    fst (for_each label body items elements)
    = Return (items
              ++ flat_map
                   (fun e => match body e with Return rs => rs | Raise _ => [] end)
                   elements)%list.
Proof.
  induction elements as [| e l IH]; intros items; simpl.
  - now rewrite app_nil_r.
  - rewrite fst_bind. destruct (body e) as [rs | err]; simpl.
    + rewrite IH. now rewrite app_assoc.
    + apply IH.
Qed.

(** Each extractor is the fetch, the selector loop and the loop over the
    first [max_items] elements. *)
Lemma scrape_unfold (p : profile) (base_url : string)
    (custom_selectors : option (list string)) :
  fst (scrape env self p base_url custom_selectors)
  = match fst (get_page env self base_url) with
    | Return None => Return []
    | Return (Some soup) =>
        match select_first env (fun found => found) soup
                (selectors_or custom_selectors (default_selectors p)) with
        | Return elements =>
            Return (flat_map (yield env p base_url)
                      (Py.slice_to (max_items self) elements))
        | Raise e => Raise e
        end
    | Raise e => Raise e
    end.
Proof.
  assert (Hkeep : forall soup l,
             select_first env (Py.slice_to (max_items self)) soup l
             = match select_first env (fun found => found) soup l with
               | Return elements =>
                   Return (Py.slice_to (max_items self) elements)
               | Raise e => Raise e
               end).
  { intros soup l. induction l as [| s l IH]; simpl.
    - unfold Py.slice_to. now destruct (max_items self <? 0)%Z;
        rewrite firstn_nil.
    - destruct (select env soup s) as [[| e found] | err]; auto. }
  destruct p; unfold scrape, scrape_news_articles, scrape_product_listings,
    scrape_social_media_posts, scrape_generic_content;
    rewrite fst_bind;
    destruct (fst (get_page env self base_url)) as [[soup |] | e];
    try reflexivity;
    rewrite fst_bind; unfold lift; cbn [fst]; rewrite ?Hkeep;
    destruct (select_first env (fun found => found) soup _) as [els | e];
    try reflexivity;
    rewrite for_each_yields; reflexivity.
Qed.

(** An extractor that finds elements with selector [sel], after selectors
    that find none, returns the records of the first [max_items] of them. *)
Lemma scrape_commits (p : profile) (base_url : string)
    (custom_selectors : option (list string)) (soup : node)
    (pre : list string) (sel : string) (post : list string)
    (found : list element) :
  fst (get_page env self base_url) = Return (Some soup) ->
  selectors_or custom_selectors (default_selectors p) = (pre ++ sel :: post)%list ->
  (forall s, In s pre -> select env soup s = Return []) ->
  select env soup sel = Return found ->
  found <> [] ->
  fst (scrape env self p base_url custom_selectors)
  = Return (flat_map (yield env p base_url)
              (Py.slice_to (max_items self) found)).
Proof.
  intros Hpage Hsels Hpre Hsel Hne.
  rewrite scrape_unfold, Hpage, Hsels.
  now rewrite (select_first_commits _ soup pre sel post found Hpre Hsel Hne).
Qed.

(** The records of one element respect the bounds. *)
Lemma yield_bounded (p : profile) (base_url : string) (e : element) :
  Forall bounded (yield env p base_url e).
Proof.
  destruct p; unfold yield, item, news_item, product_item, social_item,
    generic_item, obind.
  - destruct (resolve env base_url _ "href"); [| constructor].
    apply Forall_cons; [apply take_length | constructor].
  - destruct (resolve env base_url _ "href"); [| constructor].
    destruct (resolve env base_url _ "src"); [| constructor].
    apply Forall_cons; [exact I | constructor].
  - apply Forall_cons; [apply take_length | constructor].
  - destruct (20 <? _); [| constructor].
    destruct (resolve env base_url _ "href"); [| constructor].
    apply Forall_cons; [apply take_length | constructor].
Qed.

(** An element contributes a record exactly when the loop body appends
    one. *)
Lemma yield_extracts (p : profile) (base_url : string) (e : element) :
  yield env p base_url e <> [] <-> extracts env p base_url e.
Proof.
  destruct p; unfold yield, item, extracts, news_item, product_item,
    social_item, generic_item, obind.
  - destruct (resolve env base_url _ "href") as [l | err].
    + split; [eauto | discriminate].
    + split; [congruence | intros [l [=]]].
  - destruct (resolve env base_url _ "href") as [l | err].
    + destruct (resolve env base_url _ "src") as [i | err].
      * split; [eauto | discriminate].
      * split; [congruence | intros [_ [i [=]]]].
    + split; [congruence | intros [[l [=]] _]].
  - split; [auto | discriminate].
  - destruct (20 <? _) eqn:Hlen.
    + apply Nat.ltb_lt in Hlen.
      destruct (resolve env base_url _ "href") as [l | err].
      * split; [eauto | discriminate].
      * split; [congruence | intros [_ [l [=]]]].
    + apply Nat.ltb_ge in Hlen. split; [congruence | intros [H _]; lia].
Qed.

(** A positive [max_items] keeps the first element found. *)
Lemma slice_to_head {A : Type} (n : Z) (x : A) (l : list A) :
  (1 <= n)%Z -> In x (Py.slice_to n (x :: l)).
Proof.
  intros Hn. unfold Py.slice_to.
  destruct (n <? 0)%Z eqn:Hneg; [apply Z.ltb_lt in Hneg; lia |].
  destruct (Z.to_nat n) as [| k] eqn:Hk; [lia |]. now left.
Qed.

End Extractors.

(** C1, as the code has it.  Every extractor (news, product, social,
    generic) tries its selectors in order and commits to the first one that
    matches an element: when the selectors before [sel] match nothing and
    [sel] matches [found], the records returned are those of the first
    [max_items] elements of [found], whatever the selectors after [sel]
    would match.  So for a document matched only by the third candidate the
    records come from the elements of the third selector.  The result is
    empty exactly when the loop body appends a record for none of these
    elements; it is not empty when [max_items] is positive and the body
    appends one for the first element found. *)
Theorem scrape_commits_to_first_match
    (env : Env) (self : WebScraper) (p : profile) (base_url : string)
    (custom_selectors : option (list string)) (soup : node)
    (pre : list string) (sel : string) (post : list string)
    (found : list element) :
  fst (get_page env self base_url) = Return (Some soup) ->
  selectors_or custom_selectors (default_selectors p)
  = (pre ++ sel :: post)%list ->
  (forall s, In s pre -> select env soup s = Return []) ->
  select env soup sel = Return found ->
  found <> [] ->
  fst (scrape env self p base_url custom_selectors)
  = Return (flat_map (yield env p base_url)
              (Py.slice_to (max_items self) found))
  /\ (fst (scrape env self p base_url custom_selectors) = Return []
      <-> forall e, In e (Py.slice_to (max_items self) found) ->
                    ~ extracts env p base_url e)
  /\ ((1 <= max_items self)%Z ->
      forall e rest,
        found = e :: rest -> extracts env p base_url e ->
        fst (scrape env self p base_url custom_selectors) <> Return []).
Proof.
  intros Hpage Hsels Hpre Hsel Hne.
  rewrite (scrape_commits env self p base_url custom_selectors soup pre sel
             post found Hpage Hsels Hpre Hsel Hne).
  split; [reflexivity |].
  assert (Hempty : forall kept,
             Return (flat_map (yield env p base_url) kept)
             = Return (@nil record)
             <-> forall e, In e kept -> ~ extracts env p base_url e).
  { intros kept. split.
    - intros [= H] e Hin Hex. apply yield_extracts in Hex. apply Hex.
      destruct (yield env p base_url e) as [| r rs] eqn:Hy; [reflexivity |].
      assert (Hr : In r (flat_map (yield env p base_url) kept)).
      { apply in_flat_map. exists e. split; [exact Hin |].
        rewrite Hy. now left. }
      rewrite H in Hr. destruct Hr.
    - intros H. f_equal. induction kept as [| e kept IH]; [reflexivity |].
      simpl.
      destruct (yield env p base_url e) as [| r rs] eqn:Hy.
      + apply IH. intros e' Hin. apply H. now right.
      + exfalso. apply (H e (or_introl eq_refl)), yield_extracts.
        now rewrite Hy. }
  split; [apply Hempty |].
  intros Hmax e rest -> Hex Hnil.
  apply (proj1 (Hempty _) Hnil e); [now apply slice_to_head | exact Hex].
Qed.

Lemma scrape_commits_to_first_match_witness :
  fst (scrape Sample.env Sample.direct News "https://x.test/news" None)
  = Return [NewsRecord (Sample.repeat_char "a" 501) EmptyString
              (Sample.repeat_char "b" 200) EmptyString EmptyString
              "https://x.test/news"].
Proof.
  refine (proj1 (scrape_commits_to_first_match Sample.env Sample.direct News
                   "https://x.test/news" None (Sample.tree Sample.long_news)
                   ["article"; ".article"] ".news-item"
                   [".post"; "div[class*=" ++ dq ++ "article" ++ dq ++ "]";
                    ".story"; ".news-story"]
                   (Sample.matched Sample.long_news ".news-item")
                   _ _ _ _ _)).
  - vm_compute. reflexivity.
  - reflexivity.
  - intros s [<- | [<- | []]]; reflexivity.
  - reflexivity.
  - discriminate.
Defined.

(** C1 as stated fails for the generic profile: the page [<span>hi</span>]
    is matched by the third default selector only, and the result is empty,
    the text of the [span] being too short. *)
Lemma generic_third_selector_empty :
  map (fun s => List.length (Sample.matched Sample.short_span s))
    generic_selectors
  = [0; 0; 1; 0; 0; 0; 0; 0]
  /\ fst (scrape Sample.env Sample.direct Generic "https://x.test/span" None)
     = Return [].
Proof. split; vm_compute; reflexivity. Qed.

(** C8, as the code has it.  In every record an extractor returns, the
    summary of a news record has at most 200 characters, the content of a
    post at most 300 and the text of a generic record at most 500.  The
    other fields, titles and names among them, are not cut. *)
Theorem scrape_bounds_cut_fields
    (env : Env) (self : WebScraper) (p : profile) (base_url : string)
    (custom_selectors : option (list string)) (rs : list record) :
  fst (scrape env self p base_url custom_selectors) = Return rs ->
  Forall bounded rs.
Proof.
  rewrite scrape_unfold.
  destruct (fst (get_page env self base_url)) as [[soup |] | e];
    [| intros [= <-]; constructor | discriminate].
  destruct (select_first env _ soup _) as [els | e]; [| discriminate].
  intros [= <-]. apply Forall_flat_map, Forall_forall.
  intros e _. apply yield_bounded.
Qed.

Lemma scrape_bounds_cut_fields_witness :
  Forall bounded
    [NewsRecord (Sample.repeat_char "a" 501) EmptyString
       (Sample.repeat_char "b" 200) EmptyString EmptyString
       "https://x.test/news"].
Proof.
  apply (scrape_bounds_cut_fields Sample.env Sample.direct News
           "https://x.test/news" None).
  vm_compute. reflexivity.
Defined.

(** C8 as stated fails for titles and names: a heading of 501 letters is
    the title of the news record, and the name of the product record, with
    all its letters. *)
Lemma titles_and_names_are_not_cut :
  fst (scrape Sample.env Sample.direct News "https://x.test/news" None)
  = Return [NewsRecord (Sample.repeat_char "a" 501) EmptyString
              (Sample.repeat_char "b" 200) EmptyString EmptyString
              "https://x.test/news"]
  /\ fst (scrape Sample.env Sample.direct Product "https://x.test/product"
            None)
     = Return [ProductRecord (Sample.repeat_char "a" 501) "No price"
                 EmptyString EmptyString EmptyString EmptyString
                 "https://x.test/product"]
  /\ String.length (Sample.repeat_char "a" 501) = 501.
Proof. repeat split; vm_compute; reflexivity. Qed.

(** C9, as the code has it.  The generic extractor returns the records of
    the first [max_items] elements matched by the first selector that
    matches any.  An element whose stripped text has more than 20
    characters yields one record, with the first 500 characters of the
    text, provided its link resolves; an element whose text has 20
    characters or fewer yields none. *)
Theorem generic_keeps_texts_over_twenty
    (env : Env) (self : WebScraper) (base_url : string)
    (custom_selectors : option (list string)) (soup : node)
    (pre : list string) (sel : string) (post : list string)
    (found : list element) :
  fst (get_page env self base_url) = Return (Some soup) ->
  selectors_or custom_selectors generic_selectors
  = (pre ++ sel :: post)%list ->
  (forall s, In s pre -> select env soup s = Return []) ->
  select env soup sel = Return found ->
  found <> [] ->
  fst (scrape_generic_content env self base_url custom_selectors)
  = Return (flat_map (yield env Generic base_url)
              (Py.slice_to (max_items self) found))
  /\ forall e : element,
       let text := get_text EmptyString true (el e) in
       (String.length text <= 20 -> yield env Generic base_url e = [])
       /\ (20 < String.length text ->
           forall link,
             resolve env base_url
               (or_else (find e ["a"]) (find_parent e "a")) "href"
             = Return link ->
             yield env Generic base_url e
             = [GenericRecord (Py.take 500 text) link (tag_name e)
                  (Py.join " " (get_class e)) base_url]).
Proof.
  intros Hpage Hsels Hpre Hsel Hne. split.
  - exact (scrape_commits env self Generic base_url custom_selectors soup
             pre sel post found Hpage Hsels Hpre Hsel Hne).
  - intros e text. unfold yield, item, generic_item. fold text. split.
    + intros Hle. apply Nat.ltb_ge in Hle. now rewrite Hle.
    + intros Hlt link Hlink. apply Nat.ltb_lt in Hlt.
      rewrite Hlt, Hlink. reflexivity.
Qed.

Lemma generic_keeps_texts_over_twenty_witness :
  fst (scrape_generic_content Sample.env Sample.direct
         "https://x.test/paragraphs" None)
  = Return (flat_map (yield Sample.env Generic "https://x.test/paragraphs")
              (Py.slice_to (max_items Sample.direct)
                 (Sample.matched Sample.two_paragraphs "p"))).
Proof.
  apply (generic_keeps_texts_over_twenty Sample.env Sample.direct
           "https://x.test/paragraphs" None
           (Sample.tree Sample.two_paragraphs) [] "p"
           ["div"; "span"; "h1"; "h2"; "h3"; "li"; "td"]).
  - vm_compute. reflexivity.
  - reflexivity.
  - intros s [].
  - reflexivity.
  - discriminate.
Defined.

(** C9 as stated fails at 20 characters: of a paragraph of 20 characters
    and one of 21, both matched by the first selector, only the second has
    a record. *)
Lemma twenty_characters_are_dropped :
  map (fun e => String.length (get_text EmptyString true (el e)))
    (Sample.matched Sample.two_paragraphs "p")
  = [20; 21]
  /\ fst (scrape_generic_content Sample.env Sample.direct
            "https://x.test/paragraphs" None)
     = Return [GenericRecord "abcdefghijklmnopqrstu" EmptyString "p"
                 EmptyString "https://x.test/paragraphs"].
Proof. split; vm_compute; reflexivity. Qed.

(** ** Counting occurrences *)

Section Counting.

Lemma prefix_length (sub s : string) :
  prefix sub s = true -> String.length sub <= String.length s.
Proof.
  revert s. induction sub as [| c sub IH]; intros [| d s]; simpl;
    try lia; try discriminate.
  destruct (ascii_dec c d); [| discriminate].
  intros H. apply IH in H. lia.
Qed.

Lemma occurs_at_head (sub s : string) :
  occurs_at sub s 0 <-> prefix sub s = true.
Proof.
  unfold occurs_at. rewrite prefix_correct. split.
  - tauto.
  - intros H. split; [| exact H].
    apply prefix_length, prefix_correct, H.
Qed.

Lemma occurs_at_tail (sub : string) (c : ascii) (s : string) (p : nat) :
  occurs_at sub (String c s) (S p) <-> occurs_at sub s p.
Proof. unfold occurs_at. simpl. intuition lia. Qed.

Lemma occurs_at_empty_text (sub : string) (p : nat) :
  sub <> EmptyString -> ~ occurs_at sub EmptyString p.
Proof.
  intros Hne [Hlen _]. destruct sub; [contradiction | simpl in Hlen; lia].
Qed.

Lemma occurs_at_tails (sub : string) (c : ascii) (s : string)
    (ps : list nat) :
  Forall (occurs_at sub (String c s)) (map S ps)
  <-> Forall (occurs_at sub s) ps.
Proof.
  rewrite Forall_map, !Forall_forall.
  split; intros H p Hin; apply (occurs_at_tail sub c s p), H, Hin.
Qed.

Lemma spaced_lower (gap lo lo' : nat) (ps : list nat) :
  lo' <= lo -> spaced gap lo ps -> spaced gap lo' ps.
Proof. destruct ps; simpl; [tauto | intuition lia]. Qed.

Lemma spaced_shift (gap : nat) (ps : list nat) :
  forall lo, spaced gap lo ps -> spaced gap (S lo) (map S ps).
Proof.
  induction ps as [| p ps IH]; intros lo; simpl; [tauto |].
  intros [Hlo Hps]. split; [lia |]. apply (IH (p + gap)), Hps.
Qed.

Lemma spaced_unshift (gap : nat) (ps : list nat) :
  forall lo, spaced gap (S lo) ps ->
             exists ps0, ps = map S ps0 /\ spaced gap lo ps0.
Proof.
  induction ps as [| p ps IH]; intros lo; simpl.
  - intros _. now exists [].
  - intros [Hlo Hps]. destruct p as [| p]; [lia |].
    destruct (IH (p + gap) Hps) as (ps0 & -> & Hps0).
    exists (p :: ps0). simpl. split; [reflexivity |]. split; [lia | exact Hps0].
Qed.

Variable sub : string.
Hypothesis sub_not_empty : sub <> EmptyString.

Let m := String.length sub.

Lemma sub_length_positive : 1 <= m.
Proof. unfold m. destruct sub; [contradiction | simpl; lia]. Qed.

(** No choice of occurrences starting at [skip] or later, none overlapping
    the one before, has more members than the scan counts. *)
Lemma count_from_bounds (s : string) :
  forall skip ps,
    spaced m skip ps -> Forall (occurs_at sub s) ps ->
    List.length ps <= Py.count_from sub s skip.
Proof.
  pose proof sub_length_positive as Hm.
  induction s as [| c s IH]; intros skip ps Hsp Hocc.
  - destruct ps as [| p ps]; [simpl; lia |].
    inversion Hocc as [| ? ? Hp _]; subst.
    now apply occurs_at_empty_text in Hp.
  - destruct skip as [| k].
    + cbn [Py.count_from]. fold m.
      destruct (prefix sub (String c s)) eqn:Hpre.
      * destruct ps as [| p ps]; [simpl; lia |].
        destruct Hsp as [_ Hsp]. inversion Hocc as [| ? ? _ Hocc']; subst.
        apply (spaced_lower m (p + m) (S (m - 1))) in Hsp; [| lia].
        destruct (spaced_unshift m ps (m - 1) Hsp) as (ps0 & -> & Hps0).
        apply occurs_at_tails in Hocc'.
        specialize (IH (m - 1) ps0 Hps0 Hocc').
        simpl. rewrite length_map. lia.
      * destruct ps as [| p ps]; [simpl; lia |].
        assert (Hp : 1 <= p).
        { destruct p; [| lia]. inversion Hocc as [| ? ? H0 _]; subst.
          apply occurs_at_head in H0. congruence. }
        assert (Hsp1 : spaced m 1 (p :: ps)).
        { destruct Hsp as [_ Hsp]. split; [exact Hp | exact Hsp]. }
        destruct (spaced_unshift m (p :: ps) 0 Hsp1) as (ps0 & Heq & Hps0).
        rewrite Heq in Hocc |- *. apply occurs_at_tails in Hocc.
        specialize (IH 0 ps0 Hps0 Hocc). rewrite length_map. exact IH.
    + cbn [Py.count_from].
      destruct (spaced_unshift m ps k Hsp) as (ps0 & -> & Hps0).
      apply occurs_at_tails in Hocc.
      specialize (IH k ps0 Hps0 Hocc). rewrite length_map. exact IH.
Qed.

(** The occurrences the scan counts form such a choice. *)
Lemma count_from_reached (s : string) :
  forall skip,
    exists ps, spaced m skip ps /\ Forall (occurs_at sub s) ps
               /\ List.length ps = Py.count_from sub s skip.
Proof.
  pose proof sub_length_positive as Hm.
  induction s as [| c s IH]; intros skip.
  - exists []. simpl. auto.
  - destruct skip as [| k]; cbn [Py.count_from]; fold m.
    + destruct (prefix sub (String c s)) eqn:Hpre.
      * destruct (IH (m - 1)) as (ps0 & Hsp & Hocc & Hlen).
        exists (0 :: map S ps0). split; [| split].
        -- split; [lia |]. replace (0 + m) with (S (m - 1)) by lia.
           now apply spaced_shift.
        -- constructor; [now apply occurs_at_head | now apply occurs_at_tails].
        -- simpl. rewrite length_map. now f_equal.
      * destruct (IH 0) as (ps0 & Hsp & Hocc & Hlen).
        exists (map S ps0). split; [| split].
        -- apply (spaced_lower m 1); [lia | now apply spaced_shift].
        -- now apply occurs_at_tails.
        -- now rewrite length_map.
    + destruct (IH k) as (ps0 & Hsp & Hocc & Hlen).
      exists (map S ps0). split; [| split].
      * now apply spaced_shift.
      * now apply occurs_at_tails.
      * now rewrite length_map.
Qed.

End Counting.

(** The empty string occurs at every position up to the length. *)
Lemma spaced_within (limit : nat) (ps : list nat) :
  forall lo, spaced 1 lo ps -> Forall (fun p => p <= limit) ps ->
             List.length ps <= S limit - lo.
Proof.
  induction ps as [| p ps IH]; intros lo; cbn [spaced List.length]; [lia |].
  intros [Hlo Hsp] Hle. inversion Hle as [| ? ? Hp Hle']; subst.
  specialize (IH (p + 1) Hsp Hle'). lia.
Qed.

Lemma spaced_seq (n : nat) : forall lo, spaced 1 lo (seq lo n).
Proof.
  induction n as [| n IH]; intros lo; simpl; [exact I |].
  split; [lia |]. replace (lo + 1) with (S lo) by lia. apply IH.
Qed.

Lemma substring_nothing (s : string) : forall p, substring p 0 s = EmptyString.
Proof.
  induction s as [| c s IH]; intros [| p]; simpl; auto.
Qed.

Lemma String_neq_empty (c : ascii) (s : string) : String c s <> EmptyString.
Proof. discriminate. Qed.

(** [s.count(sub)] is the number of non-overlapping occurrences of [sub] in
    [s]. *)
Lemma count_occurrences (s sub : string) : occurrences sub s (Py.count s sub).
Proof.
  unfold occurrences, non_overlapping, Py.count.
  destruct sub as [| c sub'].
  - cbn [Py.is_empty String.length Nat.max]. split.
    + exists (seq 0 (S (String.length s))). split; [split |].
      * apply spaced_seq.
      * apply Forall_forall. intros p Hin. apply in_seq in Hin.
        split; [simpl; lia | apply substring_nothing].
      * apply length_seq.
    + intros ps [Hsp Hocc].
      pose proof (spaced_within (String.length s) ps 0 Hsp) as H.
      rewrite Nat.sub_0_r in H. apply H.
      apply Forall_impl with (2 := Hocc). intros p [Hp _]. simpl in Hp. lia.
  - change (Py.is_empty (String c sub')) with false. cbv iota.
    generalize (String c sub') (@String_neq_empty c sub'). intros w Hne.
    assert (Hmax : Nat.max 1 (String.length w) = String.length w).
    { pose proof (sub_length_positive w Hne). lia. }
    rewrite Hmax. split.
    + destruct (count_from_reached w Hne s 0) as (ps & Hsp & Hocc & Hlen).
      exists ps. auto.
    + intros ps [Hsp Hocc]. now apply count_from_bounds.
Qed.

(** ** The traversal *)

Lemma gets_app (t1 t2 : trace) :
  gets (t1 ++ t2)%list = (gets t1 ++ gets t2)%list.
Proof.
  induction t1 as [| ev t1 IH]; [reflexivity |].
  destruct ev; simpl; now rewrite ?IH.
Qed.

Lemma visits_app (t1 t2 : trace) :
  visits (t1 ++ t2)%list = (visits t1 ++ visits t2)%list.
Proof.
  induction t1 as [| ev t1 IH]; [reflexivity |].
  destruct ev; simpl; now rewrite ?IH.
Qed.

Lemma In_gets (u : string) (t : trace) : In u (gets t) <-> In (HttpGet u) t.
Proof.
  induction t as [| ev t IH]; [reflexivity |].
  destruct ev; simpl; rewrite IH; intuition congruence.
Qed.

Lemma In_visits (u : string) (d : Z) (t : trace) :
  In (u, d) (visits t) <-> In (Visit u d) t.
Proof.
  induction t as [| ev t IH]; [reflexivity |].
  destruct ev; simpl; rewrite IH; intuition congruence.
Qed.

Section TraversalFacts.

Variable env : Env.
Variable self : WebScraper.

Lemma get_page_visits (url : string) :
  visits (snd (get_page env self url)) = [].
Proof.
  pose proof (get_page_trace env self url) as H.
  induction (snd (get_page env self url)) as [| ev t IH]; [reflexivity |].
  assert (Hev := H ev (or_introl eq_refl)).
  destruct ev; simpl in *; try (apply IH; intros; apply H; now right).
  destruct Hev.
Qed.

Lemma can_fetch_gets (url : string) :
  gets (snd (can_fetch env self url)) = [].
Proof.
  pose proof (can_fetch_trace env self url) as H.
  induction (snd (can_fetch env self url)) as [| ev t IH]; [reflexivity |].
  destruct (H ev (or_introl eq_refl)) as [[r ->] | [m ->]]; simpl;
    apply IH; intros; apply H; now right.
Qed.

(** [get_page] sends at most one request, for the address it is given. *)
Lemma get_page_gets (url : string) :
  gets (snd (get_page env self url)) = []
  \/ gets (snd (get_page env self url)) = [url].
Proof.
  unfold get_page.
  destruct (parse env url) as [p | e]; simpl; [| now left].
  destruct (http_scheme (scheme p)); simpl; [| now left].
  pose proof (can_fetch_gets url) as Hc.
  destruct (can_fetch env self url) as [[b | e] t]; simpl in *; [| now left].
  destruct b; simpl;
    [ destruct (session_get env url) as [r | e]; simpl;
      [ destruct (raise_for_status r) as [[] | e]; simpl;
        [ destruct (html_parser env (content r)) as [soup | e]; simpl;
          [ unfold sleep;
              destruct (time_sleep env (delay self)) eqn:Hpause; simpl
            | ]
        | ]
      | ]
    | ];
    rewrite gets_app, Hc; simpl; auto.
Qed.

(** The links of a page are added at the end of the queue, one level
    deeper. *)
Lemma enqueue_links_appends (url : string) (depth : Z)
    (visited : list string) (l : list element) :
  forall q0 q1,
    enqueue_links env url depth visited l q0 = Return q1 ->
    exists new, q1 = (q0 ++ new)%list
                /\ Forall (fun e => snd e = (depth + 1)%Z) new.
Proof.
  induction l as [| a l IH]; intros q0 q1; simpl.
  - intros [= <-]. exists []. now rewrite app_nil_r.
  - destruct (href a) as [h | e]; simpl; [| discriminate].
    destruct (urljoin env url h) as [link | e]; simpl; [| discriminate].
    destruct (parse env link) as [parsed | e]; simpl; [| discriminate].
    intros H. apply IH in H. destruct H as (new & -> & Hnew).
    destruct (http_scheme (scheme parsed) && negb (mem link visited)).
    + exists ((link, (depth + 1)%Z) :: new). rewrite <- app_assoc.
      split; [reflexivity | now constructor].
    + now exists new.
Qed.

Variable keywords : list string.

Lemma count_keywords_appends (url text : string) (kws : list string) :
  forall acc,
    count_keywords url text kws acc
    = (acc ++ count_keywords url text kws [])%list.
Proof.
  induction kws as [| kw kws IH]; intros acc; simpl.
  - now rewrite app_nil_r.
  - destruct (0 <? _).
    + rewrite (IH (acc ++ [_])%list), (IH [_]).
      now rewrite <- app_assoc.
    + apply IH.
Qed.

(** The records of a page: one for each keyword that occurs, with the
    address of the page and the count. *)
Lemma In_count_keywords (url text : string) (kws : list string) (r : record) :
  In r (count_keywords url text kws [])
  <-> exists kw, In kw kws
        /\ 0 < Py.count (Py.lower text) (Py.lower kw)
        /\ r = KeywordRecord url kw (Py.count (Py.lower text) (Py.lower kw)).
Proof.
  induction kws as [| kw kws IH]; simpl.
  - split; [intros [] | intros (kw & [] & _)].
  - rewrite count_keywords_appends, in_app_iff, IH.
    destruct (0 <? Py.count (Py.lower text) (Py.lower kw)) eqn:Hc; simpl.
    + apply Nat.ltb_lt in Hc. split.
      * intros [[<- | []] | (kw' & Hin & Hpos & ->)]; eauto 6.
      * intros (kw' & [<- | Hin] & Hpos & ->); eauto 6.
    + apply Nat.ltb_ge in Hc. split.
      * intros [[] | (kw' & Hin & Hpos & ->)]; eauto 6.
      * intros (kw' & [<- | Hin] & Hpos & ->); [lia | eauto 6].
Qed.

Variable max_depth : Z.

(** One turn of the loop, for the entry at the head of the queue. *)
Lemma turn_spec (st : crawl) (url : string) (depth : Z)
    (rest : list (string * Z)) :
  q st = (url, depth) :: rest ->
  if mem url (visited st) || (max_depth <? depth)%Z then
    turn env self keywords max_depth st
    = (Return {| q := rest; visited := visited st; results := results st;
                 pages_crawled := pages_crawled st |}, [])
  else
    exists o,
      turn env self keywords max_depth st
      = (o, Visit url depth :: snd (get_page env self url))
      /\ match o with
         | Raise _ => True
         | Return st' =>
             visited st' = url :: visited st
             /\ results st'
                = (results st ++ page_records env self keywords url)%list
             /\ ((pages_crawled st' = pages_crawled st /\ q st' = rest)
                 \/ (pages_crawled st' = (pages_crawled st + 1)%Z
                     /\ exists new,
                          q st' = (rest ++ new)%list
                          /\ Forall (fun e => snd e = (depth + 1)%Z) new
                          /\ (new <> [] -> (depth < max_depth)%Z)))
         end.
Proof.
  intros Hq. unfold turn. rewrite Hq.
  destruct (mem url (visited st) || (max_depth <? depth)%Z); [reflexivity |].
  unfold page_records.
  destruct (get_page env self url) as [[[soup |] | e] tg];
    cbn [bind emit ret fst snd app].
  - destruct (depth <? max_depth)%Z eqn:Hd.
    + destruct (enqueue_links env url depth (url :: visited st)
                  (anchors soup) rest) as [q1 | e] eqn:Hl;
        cbn [lift bind ret].
      * destruct (enqueue_links_appends _ _ _ _ _ _ Hl) as (new & -> & Hnew).
        eexists. split; [apply f_equal2; [reflexivity | now rewrite ?app_nil_r] |]. cbn.
        split; [reflexivity |]. split; [apply count_keywords_appends |].
        right. split; [reflexivity |]. exists new. split; [reflexivity |].
        split; [exact Hnew |]. intros _. now apply Z.ltb_lt.
      * eexists. split; [apply f_equal2; [reflexivity | now rewrite ?app_nil_r] |]. exact I.
    + eexists. split; [apply f_equal2; [reflexivity | now rewrite ?app_nil_r] |]. cbn.
      split; [reflexivity |]. split; [apply count_keywords_appends |].
      right. split; [reflexivity |]. exists []. rewrite app_nil_r.
      split; [reflexivity |]. split; [constructor | congruence].
  - eexists. split; [apply f_equal2; [reflexivity | now rewrite ?app_nil_r] |]. cbn.
    split; [reflexivity |]. split; [now rewrite app_nil_r |]. now left.
  - eexists. split; [reflexivity |]. exact I.
Qed.

End TraversalFacts.

Section Runs.

Variable env : Env.
Variable self : WebScraper.
Variable keywords : list string.
Variable max_depth : Z.
Variable max_pages : Z.

(** A turn of the loop either discards the entry at the head of the queue
    or marks its address visited and calls [get_page] for it. *)
Lemma turn_cases (st : crawl) (o : outcome crawl) (t : trace) :
  continues max_pages st = true ->
  turn env self keywords max_depth st = (o, t) ->
  exists url depth rest,
    q st = (url, depth) :: rest
    /\ ((mem url (visited st) || (max_depth <? depth)%Z = true
         /\ t = []
         /\ o = Return {| q := rest; visited := visited st;
                          results := results st;
                          pages_crawled := pages_crawled st |})
        \/ (mem url (visited st) = false
            /\ (depth <= max_depth)%Z
            /\ t = Visit url depth :: snd (get_page env self url)
            /\ match o with
               | Raise _ => True
               | Return st' =>
                   visited st' = url :: visited st
                   /\ results st'
                      = (results st
                         ++ page_records env self keywords url)%list
                   /\ ((pages_crawled st' = pages_crawled st
                        /\ q st' = rest)
                       \/ (pages_crawled st' = (pages_crawled st + 1)%Z
                           /\ exists new,
                                q st' = (rest ++ new)%list
                                /\ Forall
                                     (fun e => snd e = (depth + 1)%Z) new
                                /\ (new <> [] -> (depth < max_depth)%Z)))
               end)).
Proof.
  unfold continues. intros Hc Ht.
  destruct (q st) as [| [url depth] rest] eqn:Hq; [discriminate |].
  exists url, depth, rest. split; [reflexivity |].
  pose proof (turn_spec env self keywords max_depth st url depth rest Hq) as H.
  destruct (mem url (visited st) || (max_depth <? depth)%Z) eqn:Hd.
  - left. rewrite H in Ht. injection Ht as <- <-. auto.
  - right. destruct H as (o' & H & Ho). rewrite H in Ht.
    injection Ht as <- <-. apply orb_false_elim in Hd as [Hm Hdepth].
    apply Z.ltb_ge in Hdepth. auto.
Qed.

(** Induction on the turns of a run. *)
Lemma while_runs (P : crawl -> outcome crawl -> trace -> Prop) :
  (forall st, continues max_pages st = false -> P st (Return st) []) ->
  (forall st e t,
      continues max_pages st = true ->
      turn env self keywords max_depth st = (Raise e, t) ->
      P st (Raise e) t) ->
  (forall st st' t o t',
      continues max_pages st = true ->
      turn env self keywords max_depth st = (Return st', t) ->
      P st' o t' -> P st o (t ++ t')%list) ->
  forall fuel st o tr,
    while env self keywords max_depth max_pages fuel st = Some (o, tr) ->
    P st o tr.
Proof.
  intros Hstop Hraise Hturn.
  induction fuel as [| fuel IH]; intros st o tr; simpl;
    destruct (continues max_pages st) eqn:Hc.
  - discriminate.
  - intros [= <- <-]. now apply Hstop.
  - destruct (turn env self keywords max_depth st) as [[st' | e] t] eqn:Ht.
    + destruct (while env self keywords max_depth max_pages fuel st')
        as [[o' t'] |] eqn:Hw; [| discriminate].
      intros [= <- <-]. apply (Hturn st st' t o' t' Hc Ht). now apply IH.
    + intros [= <- <-]. now apply Hraise.
  - intros [= <- <-]. now apply Hstop.
Qed.

Lemma mem_cons (u v : string) (l : list string) :
  mem u (v :: l) = String.eqb u v || mem u l.
Proof. reflexivity. Qed.

(** No entry deeper than [max_depth] is visited. *)
Lemma while_depths (fuel : nat) (st : crawl) (o : outcome crawl)
    (tr : trace) :
  while env self keywords max_depth max_pages fuel st = Some (o, tr) ->
  Forall (fun v => (snd v <= max_depth)%Z) (visits tr).
Proof.
  revert fuel st o tr. apply while_runs.
  - constructor.
  - intros st e t Hc Ht.
    destruct (turn_cases st _ _ Hc Ht)
      as (url & depth & rest & Hq & [(_ & _ & [=]) | (Hm & Hd & -> & _)]).
    simpl. rewrite get_page_visits. now repeat constructor.
  - intros st st' t o t' Hc Ht IH. rewrite visits_app.
    apply Forall_app. split; [| exact IH].
    destruct (turn_cases st _ _ Hc Ht)
      as (url & depth & rest & Hq & [(_ & -> & _) | (Hm & Hd & -> & _)]).
    + constructor.
    + simpl. rewrite get_page_visits. now repeat constructor.
Qed.

(** The addresses visited from a state on are new to its visited set and
    distinct, and the requests sent are for visited addresses, one at most
    for each. *)
Lemma while_fetches_once (fuel : nat) (st : crawl) (o : outcome crawl)
    (tr : trace) :
  while env self keywords max_depth max_pages fuel st = Some (o, tr) ->
  NoDup (map fst (visits tr))
  /\ (forall u, In u (map fst (visits tr)) -> mem u (visited st) = false)
  /\ NoDup (gets tr)
  /\ incl (gets tr) (map fst (visits tr)).
Proof.
  revert fuel st o tr. apply while_runs.
  - intros st _. simpl. repeat split; try constructor; intros u [].
  - intros st e t Hc Ht.
    destruct (turn_cases st _ _ Hc Ht)
      as (url & depth & rest & Hq & [(_ & _ & [=]) | (Hm & Hd & -> & _)]).
    simpl. rewrite get_page_visits. simpl. repeat split.
    + repeat constructor. intros [].
    + intros u [<- | []]. exact Hm.
    + destruct (get_page_gets env self url) as [-> | ->];
        repeat constructor; intros [].
    + destruct (get_page_gets env self url) as [-> | ->];
        [intros u [] | apply incl_refl].
  - intros st st' t o t' Hc Ht (Hnd & Hfresh & Hgets & Hincl).
    rewrite visits_app, gets_app, map_app.
    destruct (turn_cases st _ _ Hc Ht)
      as (url & depth & rest & Hq
          & [(_ & -> & [= ->]) | (Hm & Hd & -> & Hv & _)]).
    + simpl. auto.
    + simpl. rewrite get_page_visits. simpl.
      assert (Hnew : ~ In url (map fst (visits t'))).
      { intros Hin. apply Hfresh in Hin. rewrite Hv, mem_cons in Hin.
        now rewrite String.eqb_refl in Hin. }
      repeat split.
      * now constructor.
      * intros u [<- | Hin]; [exact Hm |].
        apply Hfresh in Hin. rewrite Hv, mem_cons in Hin.
        now apply orb_false_elim in Hin.
      * destruct (get_page_gets env self url) as [-> | ->]; simpl;
          [exact Hgets |].
        constructor; [| exact Hgets]. intros Hin. now apply Hnew, Hincl.
      * destruct (get_page_gets env self url) as [-> | ->]; simpl.
        -- now apply incl_tl.
        -- apply incl_cons; [now left | now apply incl_tl].
Qed.

(** The results of a run that returns are the records of the addresses it
    visited, in the order of the visits. *)
Lemma while_results (fuel : nat) (st : crawl) (o : outcome crawl)
    (tr : trace) :
  while env self keywords max_depth max_pages fuel st = Some (o, tr) ->
  match o with
  | Return st' =>
      results st'
      = (results st
         ++ flat_map (page_records env self keywords)
              (map fst (visits tr)))%list
  | Raise _ => True
  end.
Proof.
  revert fuel st o tr. apply while_runs.
  - intros st _. simpl. now rewrite app_nil_r.
  - intros; exact I.
  - intros st st' t o t' Hc Ht IH. destruct o as [st'' | e]; [| exact I].
    rewrite IH, visits_app, map_app, flat_map_app.
    destruct (turn_cases st _ _ Hc Ht)
      as (url & depth & rest & Hq
          & [(_ & -> & [= ->]) | (Hm & Hd & -> & Hv & Hr & _)]).
    + reflexivity.
    + simpl. rewrite get_page_visits, Hr. simpl.
      now rewrite app_nil_r, <- app_assoc.
Qed.

(** The loop ends: some amount of fuel is enough, from every state. *)
Lemma while_terminates (st : crawl) :
  exists fuel r,
    while env self keywords max_depth max_pages fuel st = Some r.
Proof.
  remember (Z.to_nat (max_pages - pages_crawled st)) as n eqn:Hn.
  revert st Hn. induction n as [n IHn] using lt_wf_ind. intros st Hn.
  remember (List.length (q st)) as len eqn:Hlen.
  revert st Hn Hlen. induction len as [len IHlen] using lt_wf_ind.
  intros st Hn Hlen.
  destruct (continues max_pages st) eqn:Hc.
  - destruct (turn env self keywords max_depth st) as [[st' | e] t] eqn:Ht.
    + assert (Hnext : exists fuel r,
                 while env self keywords max_depth max_pages fuel st'
                 = Some r).
      { assert (Hpages : (pages_crawled st < max_pages)%Z).
        { unfold continues in Hc. destruct (q st); [discriminate |].
          now apply Z.ltb_lt. }
        destruct (turn_cases st _ _ Hc Ht)
          as (url & depth & rest & Hq
              & [(_ & _ & [= ->])
                | (_ & _ & _ & _ & _ & [[Hp Hq'] | [Hp _]])]).
        - apply (IHlen (List.length rest)); simpl; auto.
          rewrite Hlen, Hq. simpl. lia.
        - apply (IHlen (List.length rest)); auto.
          + rewrite Hlen, Hq. simpl. lia.
          + now rewrite Hp.
          + now rewrite Hq'.
        - apply (IHn (Z.to_nat (max_pages - pages_crawled st'))); auto.
          rewrite Hn, Hp. lia. }
      destruct Hnext as (fuel & [o' t'] & Hw).
      exists (S fuel), (o', (t ++ t')%list). simpl. now rewrite Hc, Ht, Hw.
    + exists 1, (Raise e, t). simpl. now rewrite Hc, Ht.
  - exists 0, (ret st). simpl. now rewrite Hc.
Qed.

(** More fuel does not change the result. *)
Lemma while_fuel (fuel : nat) :
  forall st r fuel',
    while env self keywords max_depth max_pages fuel st = Some r ->
    fuel <= fuel' ->
    while env self keywords max_depth max_pages fuel' st = Some r.
Proof.
  induction fuel as [| fuel IH]; intros st r fuel'; simpl;
    destruct (continues max_pages st) eqn:Hc; try discriminate.
  - intros H _. destruct fuel'; simpl; now rewrite Hc.
  - intros H Hle. destruct fuel' as [| fuel']; [lia |]. simpl. rewrite Hc.
    destruct (turn env self keywords max_depth st) as [[st' | e] t];
      [| exact H].
    destruct (while env self keywords max_depth max_pages fuel st')
      as [[o' t'] |] eqn:Hw; [| discriminate].
    rewrite (IH st' (o', t') fuel' Hw); [exact H | lia].
  - intros H _. destruct fuel'; simpl; now rewrite Hc.
Qed.

(** A result of the search is a result of the loop from the seeds. *)
Lemma search_runs (fuel : nat) (start_urls : list string)
    (o : outcome (list record)) (tr : trace) :
  search_keywords_across_web env self keywords max_depth max_pages fuel
    start_urls = Some (o, tr) ->
  exists o',
    while env self keywords max_depth max_pages fuel (start start_urls)
    = Some (o', tr)
    /\ match o' with
       | Return st => o = Return (results st)
       | Raise e => o = Raise e
       end.
Proof.
  unfold search_keywords_across_web.
  destruct (while env self keywords max_depth max_pages fuel
              (start start_urls)) as [[[st | e] t] |]; [| | discriminate].
  - simpl. rewrite app_nil_r. intros [= <- <-]. now exists (Return st).
  - simpl. intros [= <- <-]. now exists (Raise e).
Qed.

End Runs.

(** ** Letters and their case *)

Lemma In_all_chars (c : ascii) : In c all_chars.
Proof.
  unfold all_chars. rewrite <- (ascii_nat_embedding c).
  apply in_map, in_seq. pose proof (nat_ascii_bounded c). lia.
Qed.

Lemma lower_char_table :
  forallb
    (fun c =>
       forallb
         (fun d =>
            Bool.eqb (Ascii.eqb (Py.lower_char c) (Py.lower_char d))
              (same_letter c d))
         all_chars)
    all_chars
  = true.
Proof. vm_compute. reflexivity. Qed.

(** Two characters have the same small letter exactly when they are the
    same letter. *)
Lemma lower_char_same_letter (c d : ascii) :
  Py.lower_char c = Py.lower_char d <-> same_letter c d = true.
Proof.
  pose proof lower_char_table as H. rewrite forallb_forall in H.
  specialize (H c (In_all_chars c)). rewrite forallb_forall in H.
  specialize (H d (In_all_chars d)). apply eqb_prop in H.
  rewrite <- H. symmetry. apply Ascii.eqb_eq.
Qed.

Lemma lower_same_text (a b : string) :
  Py.lower a = Py.lower b <-> same_text a b = true.
Proof.
  revert b. induction a as [| c a IH]; intros [| d b]; simpl;
    try (split; [reflexivity | reflexivity]);
    try (split; discriminate).
  rewrite andb_true_iff, <- lower_char_same_letter, <- IH.
  split; [intros [= -> ->]; auto | intros [-> ->]; reflexivity].
Qed.

Lemma lower_length (s : string) : String.length (Py.lower s) = String.length s.
Proof. induction s as [| c s IH]; simpl; [reflexivity | now rewrite IH]. Qed.

Lemma lower_substring (s : string) :
  forall p n, substring p n (Py.lower s) = Py.lower (substring p n s).
Proof.
  induction s as [| c s IH]; intros [| p] [| n]; simpl; try reflexivity.
  - now rewrite IH.
  - apply IH.
  - apply IH.
Qed.

Lemma occurs_at_lower (sub s : string) (p : nat) :
  occurs_at (Py.lower sub) (Py.lower s) p <-> occurs_caseless_at sub s p.
Proof.
  unfold occurs_at, occurs_caseless_at.
  now rewrite !lower_length, lower_substring, lower_same_text.
Qed.

Lemma caseless_occurrences_lower (sub s : string) (n : nat) :
  caseless_occurrences sub s n <-> occurrences (Py.lower sub) (Py.lower s) n.
Proof.
  assert (Hall : forall ps,
             Forall (occurs_at (Py.lower sub) (Py.lower s)) ps
             <-> Forall (occurs_caseless_at sub s) ps).
  { intros ps. rewrite !Forall_forall.
    split; intros H x Hx; apply occurs_at_lower, H, Hx. }
  unfold caseless_occurrences, occurrences, non_overlapping.
  rewrite lower_length. split.
  - intros [(ps & Hs & Hf & Hn) Hmax]. split.
    + exists ps. rewrite Hall. auto.
    + intros ps' [Hs' Hf']. apply Hmax; [exact Hs' | now apply Hall].
  - intros [(ps & [Hs Hf] & Hn) Hmax]. split.
    + exists ps. rewrite <- Hall. auto.
    + intros ps' Hs' Hf'. apply Hmax. split; [exact Hs' | now apply Hall].
Qed.

Lemma occurrences_unique (sub s : string) (n m : nat) :
  occurrences sub s n -> occurrences sub s m -> n = m.
Proof.
  intros [(ps & Hps & <-) Hn] [(ps' & Hps' & <-) Hm].
  apply Nat.le_antisymm; [apply Hm | apply Hn]; assumption.
Qed.

(** The count of the lower-cased keyword in the lower-cased text is the
    number of occurrences of the keyword, the case set aside. *)
Lemma count_caseless (text kw : string) (n : nat) :
  caseless_occurrences kw text n
  <-> n = Py.count (Py.lower text) (Py.lower kw).
Proof.
  rewrite caseless_occurrences_lower. split.
  - intros H. exact (occurrences_unique _ _ _ _ H (count_occurrences _ _)).
  - intros ->. apply count_occurrences.
Qed.

Lemma prefix_append (sub b : string) : prefix sub (sub ++ b) = true.
Proof.
  induction sub as [| c sub IH]; simpl.
  - now destruct b.
  - destruct (ascii_dec c c); [exact IH | contradiction].
Qed.

(** An occurrence counts whatever stands before and after it. *)
Lemma count_embedded (a sub b : string) : 0 < Py.count (a ++ sub ++ b) sub.
Proof.
  assert (Hocc : occurs_at sub (a ++ sub ++ b) (String.length a)).
  { induction a as [| c a IH].
    - apply (occurs_at_head sub (sub ++ b)), prefix_append.
    - apply (occurs_at_tail sub c (a ++ sub ++ b)). exact IH. }
  destruct (count_occurrences (a ++ sub ++ b) sub) as [_ Hmax].
  apply (Hmax [String.length a]). split.
  - simpl. split; [lia | exact I].
  - constructor; [exact Hocc | constructor].
Qed.

(** C2 at the page of the shop, whose first link is [http://[], for a
    scraper as the interface builds it.  The page is fetched and the
    keyword occurs in its text once, the case set aside.  A search that
    follows no link returns the record of the page.  A search that follows
    links, as the interface asks, raises the error of [urljoin] after this
    one visit, out of the loop over the links, which nothing guards: it
    returns no result sequence, and the record of the fetched page is
    lost. *)
Theorem search_loses_records_on_unresolvable_link (fuel : nat) :
  fst (get_page Shop.env Sample.polite "https://shop.test")
  = Return (Some (Sample.tree Shop.listing))
  /\ get_text " " true (Sample.tree Shop.listing) = "Lamp buy Desk buy"
  /\ caseless_occurrences "DESK" "Lamp buy Desk buy" 1
  /\ search_keywords_across_web Shop.env Sample.polite ["DESK"] 0 30
       (S fuel) ["https://shop.test"]
     = Some (Return [KeywordRecord "https://shop.test" "DESK" 1],
             [Visit "https://shop.test" 0;
              RobotsRead "https://shop.test/robots.txt";
              HttpGet "https://shop.test"; Sleep 1.5])
  /\ search_keywords_across_web Shop.env Sample.polite ["DESK"] 1 30
       (S fuel) ["https://shop.test"]
     = Some (Raise "Invalid IPv6 URL",
             [Visit "https://shop.test" 0;
              RobotsRead "https://shop.test/robots.txt";
              HttpGet "https://shop.test"; Sleep 1.5]).
Proof.
  split; [reflexivity |]. split; [reflexivity |].
  split; [now apply count_caseless |].
  split; [destruct fuel; reflexivity | reflexivity].
Qed.

(** C3.  In every traversal no address is requested twice and no address
    is visited twice, every request being for a visited address.  An entry
    whose address is already in the visited set is discarded without a
    fetch; an entry that is not discarded has its address in the visited
    set after the turn, whatever [get_page] returned, the turn being the
    visit followed by that one call of [get_page]. *)
Theorem no_address_fetched_twice
    (env : Env) (self : WebScraper) (keywords : list string)
    (max_depth max_pages : Z) (fuel : nat) (start_urls : list string)
    (o : outcome (list record)) (tr : trace) :
  search_keywords_across_web env self keywords max_depth max_pages fuel
    start_urls = Some (o, tr) ->
  NoDup (gets tr)
  /\ NoDup (map fst (visits tr))
  /\ incl (gets tr) (map fst (visits tr))
  /\ (forall st url depth rest,
        q st = (url, depth) :: rest ->
        mem url (visited st) = true ->
        turn env self keywords max_depth st
        = (Return {| q := rest; visited := visited st;
                     results := results st;
                     pages_crawled := pages_crawled st |}, []))
  /\ (forall st url depth rest st' t,
        q st = (url, depth) :: rest ->
        mem url (visited st) = false ->
        (depth <= max_depth)%Z ->
        turn env self keywords max_depth st = (Return st', t) ->
        t = Visit url depth :: snd (get_page env self url)
        /\ mem url (visited st') = true).
Proof.
  intros Hrun. apply search_runs in Hrun. destruct Hrun as (o' & Hw & _).
  destruct (while_fetches_once _ _ _ _ _ _ _ _ _ Hw)
    as (Hvisits & _ & Hgets & Hincl).
  split; [exact Hgets |]. split; [exact Hvisits |]. split; [exact Hincl |].
  split.
  - intros st url depth rest Hq Hm.
    pose proof (turn_spec env self keywords max_depth st url depth rest Hq)
      as H.
    now rewrite Hm in H.
  - intros st url depth rest st' t Hq Hm Hd Ht.
    pose proof (turn_spec env self keywords max_depth st url depth rest Hq)
      as H.
    apply Z.ltb_ge in Hd. rewrite Hm, Hd in H.
    destruct H as (o2 & H & Ho). rewrite H in Ht. injection Ht as -> <-.
    destruct Ho as (-> & _). split; [reflexivity |].
    rewrite mem_cons. now rewrite String.eqb_refl.
Qed.

Lemma no_address_fetched_twice_witness :
  NoDup ["https://x.test/linked"; "https://x.test/more"].
Proof.
  exact (proj1 (no_address_fetched_twice Sample.env Sample.polite ["cat"] 1
                  30 10 ["https://x.test/linked"]
                  (Return [KeywordRecord "https://x.test/linked" "cat" 2;
                           KeywordRecord "https://x.test/more" "cat" 1])
                  _ eq_refl)).
Defined.

(** C4.  In every traversal with maximum depth [max_depth], every visit,
    and so every request, is made at a depth of at most [max_depth].  An
    entry deeper than [max_depth] is discarded without a fetch, and a turn
    adds entries to the queue only at the depth of its entry plus one and
    only when that entry is less deep than [max_depth]. *)
Theorem no_fetch_beyond_max_depth
    (env : Env) (self : WebScraper) (keywords : list string)
    (max_depth max_pages : Z) (fuel : nat) (start_urls : list string)
    (o : outcome (list record)) (tr : trace) :
  search_keywords_across_web env self keywords max_depth max_pages fuel
    start_urls = Some (o, tr) ->
  (forall url depth, In (Visit url depth) tr -> (depth <= max_depth)%Z)
  /\ (forall url, In (HttpGet url) tr ->
        exists depth, In (Visit url depth) tr /\ (depth <= max_depth)%Z)
  /\ (forall st url depth rest,
        q st = (url, depth) :: rest ->
        (max_depth < depth)%Z ->
        turn env self keywords max_depth st
        = (Return {| q := rest; visited := visited st;
                     results := results st;
                     pages_crawled := pages_crawled st |}, []))
  /\ (forall st url depth rest st' t,
        q st = (url, depth) :: rest ->
        turn env self keywords max_depth st = (Return st', t) ->
        exists new,
          q st' = (rest ++ new)%list
          /\ Forall (fun e => snd e = (depth + 1)%Z) new
          /\ (new <> [] -> (depth < max_depth)%Z)).
Proof.
  intros Hrun. apply search_runs in Hrun. destruct Hrun as (o' & Hw & _).
  pose proof (while_depths _ _ _ _ _ _ _ _ _ Hw) as Hdepths.
  destruct (while_fetches_once _ _ _ _ _ _ _ _ _ Hw) as (_ & _ & _ & Hincl).
  rewrite Forall_forall in Hdepths.
  assert (Hvisit : forall url depth,
             In (Visit url depth) tr -> (depth <= max_depth)%Z).
  { intros url depth Hin. apply In_visits in Hin.
    exact (Hdepths _ Hin). }
  split; [exact Hvisit |]. split; [| split].
  - intros url Hin. apply In_gets, Hincl, in_map_iff in Hin.
    destruct Hin as ([u d] & <- & Hin). apply In_visits in Hin.
    exists d. split; [exact Hin | exact (Hvisit _ _ Hin)].
  - intros st url depth rest Hq Hd.
    pose proof (turn_spec env self keywords max_depth st url depth rest Hq)
      as H.
    apply Z.ltb_lt in Hd. now rewrite Hd, orb_true_r in H.
  - intros st url depth rest st' t Hq Ht.
    pose proof (turn_spec env self keywords max_depth st url depth rest Hq)
      as H.
    destruct (mem url (visited st) || (max_depth <? depth)%Z).
    + rewrite H in Ht. injection Ht as <- _. exists []. simpl.
      rewrite app_nil_r. split; [reflexivity |].
      split; [constructor | congruence].
    + destruct H as (o2 & H & Ho). rewrite H in Ht. injection Ht as -> _.
      destruct Ho as (_ & _ & [[_ ->] | [_ Hnew]]); [| exact Hnew].
      exists []. rewrite app_nil_r. split; [reflexivity |].
      split; [constructor | congruence].
Qed.

Lemma no_fetch_beyond_max_depth_witness :
  exists depth,
    In (Visit "https://x.test/more" depth)
      [Visit "https://x.test/linked" 0;
       RobotsRead "https://x.test/robots.txt";
       Log WARNING
         "Could not check robots.txt for https://x.test/linked: URLError";
       HttpGet "https://x.test/linked"; Sleep 1.5;
       Visit "https://x.test/more" 1;
       RobotsRead "https://x.test/robots.txt";
       Log WARNING
         "Could not check robots.txt for https://x.test/more: URLError";
       HttpGet "https://x.test/more"; Sleep 1.5]
    /\ (depth <= 1)%Z.
Proof.
  apply (proj1 (proj2 (no_fetch_beyond_max_depth Sample.env Sample.polite
                         ["cat"] 1 30 10 ["https://x.test/linked"]
                         (Return
                            [KeywordRecord "https://x.test/linked" "cat" 2;
                             KeywordRecord "https://x.test/more" "cat" 1])
                         _ eq_refl))).
  do 8 right. now left.
Defined.

(** C10.  In a keyword search that returns, the count of a record is the
    number of non-overlapping occurrences of the lower-cased keyword in the
    lower-cased text of the page of the record, taken as a string: what
    stands before and after an occurrence does not matter, so that an
    occurrence inside a longer word counts. *)
Theorem keyword_count_is_occurrences
    (env : Env) (self : WebScraper) (keywords : list string)
    (max_depth max_pages : Z) (fuel : nat) (start_urls : list string)
    (rs : list record) (tr : trace) (url kw : string) (c : nat) :
  search_keywords_across_web env self keywords max_depth max_pages fuel
    start_urls = Some (Return rs, tr) ->
  In (KeywordRecord url kw c) rs ->
  (exists soup,
     fst (get_page env self url) = Return (Some soup)
     /\ c = Py.count (Py.lower (get_text " " true soup)) (Py.lower kw)
     /\ occurrences (Py.lower kw) (Py.lower (get_text " " true soup)) c)
  /\ forall a b : string,
       0 < Py.count (a ++ Py.lower kw ++ b) (Py.lower kw).
Proof.
  intros Hrun Hin. split; [| intros a b; apply count_embedded].
  apply search_runs in Hrun. destruct Hrun as ([st | e] & Hw & Ho);
    [| discriminate].
  injection Ho as ->. apply while_results in Hw. rewrite Hw in Hin.
  simpl in Hin. apply in_flat_map in Hin. destruct Hin as (u & _ & Hin).
  unfold page_records in Hin.
  destruct (fst (get_page env self u)) as [[soup |] | e] eqn:Hu;
    try contradiction.
  apply In_count_keywords in Hin.
  destruct Hin as (kw' & _ & _ & [= -> -> ->]).
  exists soup. split; [exact Hu |]. split; [reflexivity |].
  apply count_occurrences.
Qed.

(** The page with the text "Category cat here more", searched for "cat":
    the count is 2, one occurrence being inside "Category". *)
Lemma keyword_count_is_occurrences_witness :
  exists soup,
    fst (get_page Sample.env Sample.direct "https://x.test/linked")
    = Return (Some soup)
    /\ 2 = Py.count (Py.lower (get_text " " true soup)) (Py.lower "cat")
    /\ occurrences (Py.lower "cat") (Py.lower (get_text " " true soup)) 2.
Proof.
  apply (proj1 (keyword_count_is_occurrences Sample.env Sample.direct
                  ["cat"] 0 30 5 ["https://x.test/linked"]
                  [KeywordRecord "https://x.test/linked" "cat" 2]
                  [Visit "https://x.test/linked" 0;
                   HttpGet "https://x.test/linked"; Sleep 1]
                  "https://x.test/linked" "cat" 2 eq_refl
                  (or_introl eq_refl))).
Defined.

(** * More properties *)

(** ** The fetch path, continued *)

(** [can_fetch] never raises, and it denies only on the answer of the
    robots parser: when robots are respected, the address parses and the
    parser says that the address may not be fetched. *)
Theorem can_fetch_denies_only_on_robots_answer
    (env : Env) (self : WebScraper) (url : string) :
  (exists b, fst (can_fetch env self url) = Return b)
  /\ (fst (can_fetch env self url) = Return false ->
      respect_robots self = true
      /\ exists p,
           parse env url = Return p
           /\ robots_can_fetch env
                (scheme p ++ "://" ++ netloc p ++ "/robots.txt") url
              = Return false).
Proof.
  split; [apply can_fetch_returns |].
  unfold can_fetch. destruct (respect_robots self); [| discriminate].
  destruct (parse env url) as [p | e]; [| discriminate].
  cbv beta iota zeta delta [negb lift emit bind try_except log ret fst].
  destruct (robots_can_fetch env _ url) as [[|] | e] eqn:Hr;
    try discriminate.
  intros _. split; [reflexivity |]. exists p. auto.
Qed.

(** A request for a page is sent only for the address [get_page] was
    given, only when its scheme is [http] or [https] and [can_fetch] has
    allowed it, and then it is the only request for a page. *)
Theorem get_page_requests_only_when_allowed
    (env : Env) (self : WebScraper) (url u : string) :
  In (HttpGet u) (snd (get_page env self url)) ->
  u = url
  /\ (exists p, parse env url = Return p /\ http_scheme (scheme p) = true)
  /\ fst (can_fetch env self url) = Return true
  /\ gets (snd (get_page env self url)) = [url].
Proof.
  intros Hin. split; [exact (get_page_trace env self url _ Hin) |].
  apply In_gets in Hin. revert Hin. unfold get_page.
  destruct (parse env url) as [p | e]; simpl; [| intros []].
  destruct (http_scheme (scheme p)) eqn:Hs; simpl; [| intros []].
  pose proof (can_fetch_gets env self url) as Hc.
  destruct (can_fetch env self url) as [[b | e] t]; simpl in *;
    [| rewrite Hc; intros []].
  destruct b; simpl;
    [ destruct (session_get env url) as [r | e]; simpl;
      [ destruct (raise_for_status r) as [[] | e]; simpl;
        [ destruct (html_parser env (content r)) as [soup | e]; simpl;
          [ unfold sleep;
              destruct (time_sleep env (delay self)) eqn:Hpause; simpl
            | ]
        | ]
      | ]
    | ];
    rewrite gets_app, Hc; simpl; intros Hin;
    try (destruct Hin; fail); eauto.
Qed.

Lemma get_page_requests_only_when_allowed_witness :
  gets (snd (get_page Sample.env Sample.direct "https://x.test"))
  = ["https://x.test"].
Proof.
  apply (get_page_requests_only_when_allowed Sample.env Sample.direct
           "https://x.test" "https://x.test").
  vm_compute. now left.
Defined.

(** The three ways [get_page] ends.  It returns a page only when the pause
    is not negative, and what it did then is what [can_fetch] did, the
    request and one pause of [delay], in this order.  When it returns
    [None] it has not paused.  It raises only when [urlparse] raises, and
    then it has done nothing. *)
Theorem get_page_pauses_once_after_success
    (env : Env) (self : WebScraper) (url : string) :
  match fst (get_page env self url) with
  | Return (Some soup) =>
      Qle_bool 0 (delay self) = true
      /\ snd (get_page env self url)
         = (snd (can_fetch env self url)
            ++ [HttpGet url; Sleep (delay self)])%list
  | Return None => forall s, ~ In (Sleep s) (snd (get_page env self url))
  | Raise e => parse env url = Raise e /\ snd (get_page env self url) = []
  end.
Proof.
  unfold get_page.
  destruct (parse env url) as [p | e]; simpl; [| auto].
  destruct (http_scheme (scheme p)); simpl;
    [| intros s [H | []]; discriminate].
  pose proof (can_fetch_returns env self url) as [b Hb].
  pose proof (can_fetch_trace env self url) as Hc.
  destruct (can_fetch env self url) as [o t]. simpl in Hb, Hc. subst o.
  assert (Ht : forall s, ~ In (Sleep s) t).
  { intros s Hin. destruct (Hc _ Hin) as [[r H] | [m H]]; discriminate. }
  destruct b; simpl;
    [ destruct (session_get env url) as [r | e]; simpl;
      [ destruct (raise_for_status r) as [[] | e]; simpl;
        [ destruct (html_parser env (content r)) as [soup | e]; simpl;
          [ unfold sleep;
              destruct (time_sleep env (delay self)) eqn:Hpause; simpl
            | ]
        | ]
      | ]
    | ];
    try (split; [now apply time_sleep_returns in Hpause | reflexivity]);
    intros s Hin; apply in_app_or in Hin; destruct Hin as [Hin | Hin];
    try (now apply (Ht s));
    simpl in Hin; repeat (destruct Hin as [Hin | Hin]; try discriminate);
    destruct Hin.
Qed.

(** When the address is allowed and the fetch fails, whatever fails,
    [get_page] returns [None]: it has sent the request and it logs one
    error, which names the address and the failure. *)
Theorem get_page_absorbs_fetch_failure
    (env : Env) (self : WebScraper) (url : string) (p : ParseResult)
    (msg : string) :
  parse env url = Return p ->
  http_scheme (scheme p) = true ->
  fst (can_fetch env self url) = Return true ->
  fetch_failure env self url msg ->
  get_page env self url
  = (Return None,
     (snd (can_fetch env self url)
      ++ [HttpGet url;
          Log ERROR ("Error fetching " ++ url ++ ": " ++ msg)])%list).
Proof.
  intros Hp Hs Hc Hf. unfold get_page. rewrite Hp. simpl. rewrite Hs. simpl.
  destruct (can_fetch env self url) as [o t]. simpl in Hc. subst o. simpl.
  destruct Hf as [e He | r e Hr He | r e Hr Hst He | r soup e Hr Hst Hsoup Hd].
  - rewrite He. reflexivity.
  - rewrite Hr. simpl. rewrite He. reflexivity.
  - rewrite Hr. simpl. rewrite Hst. simpl. rewrite He. reflexivity.
  - rewrite Hr. simpl. rewrite Hst. simpl. rewrite Hsoup. simpl.
    unfold sleep. rewrite Hd. reflexivity.
Qed.

(** Three failures: a request that times out, a pause too long for the
    clock and a negative pause, the page being fetched in the last two. *)
Lemma get_page_absorbs_fetch_failure_witness :
  get_page Sample.env Sample.direct "https://x.test/slow"
  = (Return None,
     [HttpGet "https://x.test/slow";
      Log ERROR "Error fetching https://x.test/slow: Read timed out"])
  /\ get_page Sample.env
       {| delay := 10000000000; respect_robots := false; max_items := 20 |}
       "https://x.test"
     = (Return None,
        [HttpGet "https://x.test";
         Log ERROR
           ("Error fetching https://x.test: "
            ++ "timestamp too large to convert to C _PyTime_t")])
  /\ get_page Sample.env
       {| delay := -1; respect_robots := false; max_items := 20 |}
       "https://x.test"
     = (Return None,
        [HttpGet "https://x.test";
         Log ERROR
           "Error fetching https://x.test: sleep length must be non-negative"]).
Proof.
  split; [| split].
  - apply (get_page_absorbs_fetch_failure Sample.env Sample.direct
             "https://x.test/slow" {| scheme := "https"; netloc := "x.test" |}
             "Read timed out").
    + reflexivity.
    + reflexivity.
    + reflexivity.
    + apply request_fails. reflexivity.
  - apply (get_page_absorbs_fetch_failure Sample.env
             {| delay := 10000000000; respect_robots := false;
                max_items := 20 |}
             "https://x.test" {| scheme := "https"; netloc := "x.test" |}
             "timestamp too large to convert to C _PyTime_t").
    + reflexivity.
    + reflexivity.
    + reflexivity.
    + apply pause_fails
        with (r := {| status_code := 200;
                      content := Sample.markup Sample.cats |})
             (soup := Sample.tree Sample.cats);
        reflexivity.
  - apply (get_page_absorbs_fetch_failure Sample.env
             {| delay := -1; respect_robots := false; max_items := 20 |}
             "https://x.test" {| scheme := "https"; netloc := "x.test" |}
             "sleep length must be non-negative").
    + reflexivity.
    + reflexivity.
    + reflexivity.
    + apply pause_fails
        with (r := {| status_code := 200;
                      content := Sample.markup Sample.cats |})
             (soup := Sample.tree Sample.cats);
        reflexivity.
Defined.

Lemma get_page_needs_pause (env : Env) (self : WebScraper) (url : string)
    (soup : node) :
  fst (get_page env self url) = Return (Some soup) ->
  Qle_bool 0 (delay self) = true.
Proof.
  unfold get_page.
  destruct (parse env url) as [p | e]; simpl; [| discriminate].
  destruct (http_scheme (scheme p)); simpl; [| discriminate].
  destruct (can_fetch env self url) as [[[|] | e] t]; simpl;
    try discriminate.
  destruct (session_get env url) as [r | e]; simpl; [| discriminate].
  destruct (raise_for_status r) as [[] | e]; simpl; [| discriminate].
  destruct (html_parser env (content r)) as [soup' | e]; simpl;
    [| discriminate].
  unfold sleep. destruct (time_sleep env (delay self)) eqn:Hpause; simpl;
    [now apply time_sleep_returns in Hpause | discriminate].
Qed.

(** A scraper built with a negative delay gets no page: the pause after the
    request raises and the page is dropped.  Its extractors and its keyword
    search return no record. *)
Theorem negative_delay_yields_nothing (env : Env) (self : WebScraper) :
  Qle_bool 0 (delay self) = false ->
  (forall url soup, fst (get_page env self url) <> Return (Some soup))
  /\ (forall p base_url custom_selectors rs,
        fst (scrape env self p base_url custom_selectors) = Return rs ->
        rs = [])
  /\ (forall keywords max_depth max_pages fuel start_urls rs tr,
        search_keywords_across_web env self keywords max_depth max_pages
          fuel start_urls = Some (Return rs, tr) ->
        rs = []).
Proof.
  intros Hd.
  assert (Hpage : forall url soup,
             fst (get_page env self url) <> Return (Some soup)).
  { intros url soup H. apply get_page_needs_pause in H. congruence. }
  split; [exact Hpage |]. split.
  - intros p base_url custom_selectors rs. rewrite scrape_unfold.
    destruct (fst (get_page env self base_url)) as [[soup |] | e] eqn:Hg.
    + now apply Hpage in Hg.
    + now intros [= <-].
    + discriminate.
  - intros keywords max_depth max_pages fuel start_urls rs tr Hrun.
    apply search_runs in Hrun. destruct Hrun as ([st | e] & Hw & Ho);
      [| discriminate].
    injection Ho as ->. apply while_results in Hw. rewrite Hw. clear Hw.
    simpl. induction (map fst (visits tr)) as [| u l IH]; [reflexivity |].
    simpl. rewrite IH, app_nil_r. unfold page_records.
    destruct (fst (get_page env self u)) as [[soup |] | e] eqn:Hg;
      try reflexivity.
    now apply Hpage in Hg.
Qed.

Lemma negative_delay_yields_nothing_witness :
  Qle_bool 0 (-1) = false
  /\ fst (scrape Sample.env
            {| delay := -1; respect_robots := false; max_items := 20 |}
            News "https://x.test/news" None)
     = Return (@nil record)
  /\ @nil record = [].
Proof.
  split; [reflexivity |]. split; [reflexivity |].
  apply (proj1 (proj2 (negative_delay_yields_nothing Sample.env
                         {| delay := -1; respect_robots := false;
                            max_items := 20 |} eq_refl))
           News "https://x.test/news" None []).
  reflexivity.
Defined.

(** ** The extractors, continued *)

Lemma snd_bind {A B : Type} (m : M A) (f : A -> M B) :
  snd (bind m f)
  = (snd m
     ++ match fst m with
        | Return a => snd (f a)
        | Raise _ => []
        end)%list.
Proof.
  destruct m as [[a | e] t]; simpl; [| now rewrite app_nil_r].
  now destruct (f a).
Qed.

Section ExtractorsMore.

Variable env : Env.
Variable self : WebScraper.

(** The loop over the elements logs one error for each body that raises,
    and nothing else. *)
Lemma for_each_logs (lbl : string)
    (body : element -> outcome (list record)) (elements : list element) :
  forall items,
    snd (for_each lbl body items elements)
    = flat_map
        (fun e =>
           match body e with
           | Raise msg => [Log ERROR (lbl ++ msg)]
           | Return _ => []
           end)
        elements.
Proof.
  induction elements as [| e l IH]; intros items; simpl; [reflexivity |].
  rewrite snd_bind. destruct (body e) as [rs | err]; simpl.
  - apply IH.
  - now rewrite IH.
Qed.

(** What an extractor does besides returning: the fetch, then the errors of
    the elements it kept. *)
Lemma scrape_trace (p : profile) (base_url : string)
    (custom_selectors : option (list string)) :
  snd (scrape env self p base_url custom_selectors)
  = (snd (get_page env self base_url)
     ++ match fst (get_page env self base_url) with
        | Return (Some soup) =>
            match select_first env (fun found => found) soup
                    (selectors_or custom_selectors (default_selectors p)) with
            | Return elements =>
                failure_logs env p base_url
                  (Py.slice_to (max_items self) elements)
            | Raise _ => []
            end
        | _ => []
        end)%list.
Proof.
  assert (Hkeep : forall soup l,
             select_first env (Py.slice_to (max_items self)) soup l
             = match select_first env (fun found => found) soup l with
               | Return elements =>
                   Return (Py.slice_to (max_items self) elements)
               | Raise e => Raise e
               end).
  { intros soup l. induction l as [| s l IH]; simpl.
    - unfold Py.slice_to. now destruct (max_items self <? 0)%Z;
        rewrite firstn_nil.
    - destruct (select env soup s) as [[| e found] | err]; auto. }
  destruct p; unfold scrape, scrape_news_articles, scrape_product_listings,
    scrape_social_media_posts, scrape_generic_content;
    rewrite snd_bind; f_equal;
    destruct (fst (get_page env self base_url)) as [[soup |] | e];
    try reflexivity;
    rewrite snd_bind; unfold lift; cbn [fst snd app]; rewrite ?Hkeep;
    destruct (select_first env (fun found => found) soup _) as [els | e];
    try reflexivity;
    rewrite for_each_logs; reflexivity.
Qed.

Lemma select_first_nothing (keep : list element -> list element)
    (soup : node) (selectors : list string) :
  (forall s, In s selectors -> select env soup s = Return []) ->
  select_first env keep soup selectors = Return [].
Proof.
  induction selectors as [| s l IH]; intros H; simpl; [reflexivity |].
  rewrite (H s (or_introl eq_refl)). apply IH. intros s' Hin. apply H.
  now right.
Qed.

Lemma select_first_raises (keep : list element -> list element)
    (soup : node) (pre : list string) (sel : string) (post : list string)
    (e : string) :
  (forall s, In s pre -> select env soup s = Return []) ->
  select env soup sel = Raise e ->
  select_first env keep soup (pre ++ sel :: post) = Raise e.
Proof.
  intros Hpre Hsel. induction pre as [| s pre IH]; simpl.
  - now rewrite Hsel.
  - rewrite (Hpre s (or_introl eq_refl)). apply IH.
    intros s' Hin. apply Hpre. now right.
Qed.

Lemma yield_at_most_one (p : profile) (base_url : string) (e : element) :
  List.length (yield env p base_url e) <= 1.
Proof.
  destruct p; unfold yield, item, news_item, product_item, social_item,
    generic_item, obind.
  - destruct (resolve env base_url _ "href"); cbn [List.length]; lia.
  - destruct (resolve env base_url _ "href"); cbn [List.length]; [| lia].
    destruct (resolve env base_url _ "src"); cbn [List.length]; lia.
  - cbn [List.length]; lia.
  - destruct (20 <? _); cbn [List.length]; [| lia].
    destruct (resolve env base_url _ "href"); cbn [List.length]; lia.
Qed.

Lemma flat_map_at_most_one {A B : Type} (f : A -> list B) (l : list A) :
  (forall x, List.length (f x) <= 1) ->
  List.length (flat_map f l) <= List.length l.
Proof.
  intros H. induction l as [| x l IH]; simpl; [lia |].
  rewrite length_app. specialize (H x). lia.
Qed.

Lemma slice_to_length {A : Type} (n : Z) (l : list A) :
  (0 <= n)%Z -> List.length (Py.slice_to n l) <= Z.to_nat n.
Proof.
  intros Hn. unfold Py.slice_to.
  destruct (n <? 0)%Z eqn:Hneg; [apply Z.ltb_lt in Hneg; lia |].
  apply firstn_le_length.
Qed.

(** A record of an extractor has the type of its profile and the address
    of the page as its source. *)
Lemma yield_provenance (p : profile) (base_url : string) (e : element) :
  Forall (fun r => type_of r = profile_type p
                   /\ field r "source" = Some base_url)
    (yield env p base_url e).
Proof.
  destruct p; unfold yield, item, news_item, product_item, social_item,
    generic_item, obind.
  - destruct (resolve env base_url _ "href"); [| constructor].
    apply Forall_cons; [split; reflexivity | constructor].
  - destruct (resolve env base_url _ "href"); [| constructor].
    destruct (resolve env base_url _ "src"); [| constructor].
    apply Forall_cons; [split; reflexivity | constructor].
  - apply Forall_cons; [split; reflexivity | constructor].
  - destruct (20 <? _); [| constructor].
    destruct (resolve env base_url _ "href"); [| constructor].
    apply Forall_cons; [split; reflexivity | constructor].
Qed.

End ExtractorsMore.

(** When the page cannot be fetched, an extractor returns no record and
    does nothing more than [get_page] did: no selector is tried. *)
Theorem scrape_empty_on_absent_page
    (env : Env) (self : WebScraper) (p : profile) (base_url : string)
    (custom_selectors : option (list string)) :
  fst (get_page env self base_url) = Return None ->
  scrape env self p base_url custom_selectors
  = (Return [], snd (get_page env self base_url)).
Proof.
  intros Hpage.
  rewrite (surjective_pairing (scrape env self p base_url custom_selectors)).
  rewrite scrape_unfold, scrape_trace, Hpage. now rewrite app_nil_r.
Qed.

Lemma scrape_empty_on_absent_page_witness :
  scrape Sample.env Sample.direct Product "https://x.test/none" None
  = (Return [],
     [HttpGet "https://x.test/none";
      Log ERROR "Error fetching https://x.test/none: HTTPError"]).
Proof.
  apply (scrape_empty_on_absent_page Sample.env Sample.direct Product
           "https://x.test/none" None).
  reflexivity.
Defined.

(** When no selector of the list matches an element of the page, an
    extractor returns no record and logs nothing. *)
Theorem scrape_empty_when_nothing_matches
    (env : Env) (self : WebScraper) (p : profile) (base_url : string)
    (custom_selectors : option (list string)) (soup : node) :
  fst (get_page env self base_url) = Return (Some soup) ->
  (forall s,
      In s (selectors_or custom_selectors (default_selectors p)) ->
      select env soup s = Return []) ->
  scrape env self p base_url custom_selectors
  = (Return [], snd (get_page env self base_url)).
Proof.
  intros Hpage Hnone.
  rewrite (surjective_pairing (scrape env self p base_url custom_selectors)).
  rewrite scrape_unfold, scrape_trace, Hpage.
  rewrite (select_first_nothing env _ soup _ Hnone).
  unfold Py.slice_to.
  destruct (max_items self <? 0)%Z; rewrite firstn_nil;
    now rewrite app_nil_r.
Qed.

Lemma scrape_empty_when_nothing_matches_witness :
  scrape Sample.env Sample.direct Social "https://x.test" None
  = (Return [], [HttpGet "https://x.test"; Sleep 1]).
Proof.
  apply (scrape_empty_when_nothing_matches Sample.env Sample.direct Social
           "https://x.test" None (Sample.tree Sample.cats)).
  - reflexivity.
  - intros s Hin. simpl in Hin.
    repeat (destruct Hin as [<- | Hin]; [reflexivity |]). destruct Hin.
Defined.

(** An error of the CSS engine is not caught: when a selector raises
    before any selector has matched, the extractor raises the same error,
    having done nothing more than [get_page] did. *)
Theorem scrape_raises_on_selector_error
    (env : Env) (self : WebScraper) (p : profile) (base_url : string)
    (custom_selectors : option (list string)) (soup : node)
    (pre : list string) (sel : string) (post : list string) (e : string) :
  fst (get_page env self base_url) = Return (Some soup) ->
  selectors_or custom_selectors (default_selectors p)
  = (pre ++ sel :: post)%list ->
  (forall s, In s pre -> select env soup s = Return []) ->
  select env soup sel = Raise e ->
  scrape env self p base_url custom_selectors
  = (Raise e, snd (get_page env self base_url)).
Proof.
  intros Hpage Hsels Hpre Hsel.
  rewrite (surjective_pairing (scrape env self p base_url custom_selectors)).
  rewrite scrape_unfold, scrape_trace, Hpage, Hsels.
  rewrite (select_first_raises env _ soup pre sel post e Hpre Hsel).
  now rewrite app_nil_r.
Qed.

Lemma scrape_raises_on_selector_error_witness :
  scrape Sample.env Sample.direct Generic "https://x.test"
    (Some ["article"; "p["])
  = (Raise "selector outside the sample engine",
     [HttpGet "https://x.test"; Sleep 1]).
Proof.
  apply (scrape_raises_on_selector_error Sample.env Sample.direct Generic
           "https://x.test" (Some ["article"; "p["])
           (Sample.tree Sample.cats) ["article"] "p[" []).
  - reflexivity.
  - reflexivity.
  - intros s [<- | []]. reflexivity.
  - reflexivity.
Defined.

(** With a [max_items] that is not negative, an extractor returns at most
    [max_items] records. *)
Theorem scrape_at_most_max_items
    (env : Env) (self : WebScraper) (p : profile) (base_url : string)
    (custom_selectors : option (list string)) (rs : list record) :
  (0 <= max_items self)%Z ->
  fst (scrape env self p base_url custom_selectors) = Return rs ->
  (Z.of_nat (List.length rs) <= max_items self)%Z.
Proof.
  intros Hmax. rewrite scrape_unfold.
  destruct (fst (get_page env self base_url)) as [[soup |] | e];
    [| intros [= <-]; simpl; lia | discriminate].
  destruct (select_first env _ soup _) as [els | e]; [| discriminate].
  intros [= <-].
  pose proof (flat_map_at_most_one (yield env p base_url)
                (Py.slice_to (max_items self) els)
                (yield_at_most_one env p base_url)) as H1.
  pose proof (slice_to_length (max_items self) els Hmax) as H2. lia.
Qed.

Lemma scrape_at_most_max_items_witness :
  (Z.of_nat
     (List.length
        [GenericRecord "abcdefghijklmnopqrstu" EmptyString "p" EmptyString
           "https://x.test/paragraphs"]) <= 20)%Z.
Proof.
  apply (scrape_at_most_max_items Sample.env Sample.direct Generic
           "https://x.test/paragraphs" None).
  - discriminate.
  - reflexivity.
Defined.

(** Every record of an extractor has the type of its profile, and its
    source is the address the extractor was given. *)
Theorem scrape_records_name_their_source
    (env : Env) (self : WebScraper) (p : profile) (base_url : string)
    (custom_selectors : option (list string)) (rs : list record)
    (r : record) :
  fst (scrape env self p base_url custom_selectors) = Return rs ->
  In r rs ->
  type_of r = profile_type p /\ field r "source" = Some base_url.
Proof.
  rewrite scrape_unfold.
  destruct (fst (get_page env self base_url)) as [[soup |] | e];
    [| intros [= <-] [] | discriminate].
  destruct (select_first env _ soup _) as [els | e]; [| discriminate].
  intros [= <-] Hin. apply in_flat_map in Hin. destruct Hin as (x & _ & Hin).
  pose proof (yield_provenance env p base_url x) as H.
  rewrite Forall_forall in H. exact (H r Hin).
Qed.

Lemma scrape_records_name_their_source_witness :
  type_of (ProductRecord "Desk" "No price" EmptyString
             "https://shop.test/desk" EmptyString EmptyString
             "https://shop.test")
  = "product"
  /\ field (ProductRecord "Desk" "No price" EmptyString
              "https://shop.test/desk" EmptyString EmptyString
              "https://shop.test") "source"
     = Some "https://shop.test".
Proof.
  apply (scrape_records_name_their_source Shop.env Sample.direct Product
           "https://shop.test" None
           [ProductRecord "Desk" "No price" EmptyString
              "https://shop.test/desk" EmptyString EmptyString
              "https://shop.test"]).
  - reflexivity.
  - now left.
Defined.

(** An element whose extraction raises costs its own record only: the
    extractor logs one error for it, with the message of the error, and
    goes on with the next element.  So it logs the errors of the failed
    elements among those it kept, in the order of the document, and
    returns the records of the others. *)
Theorem scrape_logs_failed_elements
    (env : Env) (self : WebScraper) (p : profile) (base_url : string)
    (custom_selectors : option (list string)) (soup : node)
    (pre : list string) (sel : string) (post : list string)
    (found : list element) :
  fst (get_page env self base_url) = Return (Some soup) ->
  selectors_or custom_selectors (default_selectors p)
  = (pre ++ sel :: post)%list ->
  (forall s, In s pre -> select env soup s = Return []) ->
  select env soup sel = Return found ->
  found <> [] ->
  scrape env self p base_url custom_selectors
  = (Return (flat_map (yield env p base_url)
               (Py.slice_to (max_items self) found)),
     (snd (get_page env self base_url)
      ++ failure_logs env p base_url
           (Py.slice_to (max_items self) found))%list).
Proof.
  intros Hpage Hsels Hpre Hsel Hne.
  rewrite (surjective_pairing (scrape env self p base_url custom_selectors)).
  rewrite scrape_unfold, scrape_trace, Hpage, Hsels.
  now rewrite (select_first_commits env _ soup pre sel post found Hpre Hsel
                 Hne).
Qed.

Lemma scrape_logs_failed_elements_witness :
  scrape Shop.env Sample.direct Product "https://shop.test" None
  = (Return [ProductRecord "Desk" "No price" EmptyString
               "https://shop.test/desk" EmptyString EmptyString
               "https://shop.test"],
     [HttpGet "https://shop.test"; Sleep 1;
      Log ERROR "Error parsing product: Invalid IPv6 URL"]).
Proof.
  refine (scrape_logs_failed_elements Shop.env Sample.direct Product
            "https://shop.test" None (Sample.tree Shop.listing)
            [] ".product"
            [".item"; "[data-product]"; ".product-item"; ".product-card";
             ".listing-item"]
            (Sample.matched Shop.listing ".product") _ _ _ _ _).
  - reflexivity.
  - reflexivity.
  - intros s [].
  - reflexivity.
  - discriminate.
Defined.

(** ** The traversal, continued *)

Lemma level_order_weaken (ds : list Z) :
  forall lo lo' hi hi',
    level_order lo ds hi -> (lo' <= lo)%Z -> (hi <= hi')%Z ->
    level_order lo' ds hi'.
Proof.
  induction ds as [| d ds IH]; intros lo lo' hi hi'; simpl; [tauto |].
  intros [Hd Hds] Hlo Hhi. split; [lia |].
  apply (IH d d hi hi' Hds); lia.
Qed.

Lemma level_order_app (ds new : list Z) (hi : Z) :
  Forall (fun d => d = hi) new ->
  forall lo, (lo <= hi)%Z -> level_order lo ds hi ->
             level_order lo (ds ++ new) hi.
Proof.
  intros Hnew. induction ds as [| d ds IH]; intros lo Hlo; simpl.
  - intros _. revert lo Hlo.
    induction Hnew as [| d new -> _ IH]; intros lo Hlo; simpl; [exact I |].
    split; [lia |]. apply IH. lia.
  - intros [Hd Hds]. split; [exact Hd |]. apply IH; [lia | exact Hds].
Qed.

Lemma nondecreasing_lower (ds : list Z) (lo lo' : Z) :
  nondecreasing lo ds -> (lo' <= lo)%Z -> nondecreasing lo' ds.
Proof. destruct ds; simpl; [tauto | intuition lia]. Qed.

(** The queue stays in breadth-first order when its head is taken and
    entries one level below the head are added at its end; the new head is
    not above the old one. *)
Lemma bfs_queue_next (url : string) (depth : Z) (rest new : list (string * Z)) :
  bfs_queue ((url, depth) :: rest) ->
  Forall (fun e => snd e = (depth + 1)%Z) new ->
  bfs_queue (rest ++ new)
  /\ match (rest ++ new)%list with
     | [] => True
     | (_, d) :: _ => (depth <= d)%Z
     end.
Proof.
  unfold bfs_queue. simpl. intros [_ Hrest] Hnew.
  assert (H : level_order depth (map snd (rest ++ new)) (depth + 1)).
  { rewrite map_app. apply level_order_app; [| lia | exact Hrest].
    apply Forall_map. exact Hnew. }
  destruct (rest ++ new)%list as [| [u d] l]; [auto |].
  simpl in H. destruct H as [Hd Hl]. split; [| lia].
  simpl. split; [lia |]. apply (level_order_weaken _ d d _ _ Hl); lia.
Qed.

Lemma start_bfs_queue (start_urls : list string) :
  bfs_queue (q (start start_urls)).
Proof.
  assert (H : forall l : list string,
             level_order 0 (map snd (map (fun url => (url, 0%Z)) l)) 1).
  { induction l as [| u l IH]; simpl; [exact I | split; [lia | exact IH]]. }
  destruct start_urls as [| u l]; simpl; [exact I |].
  split; [lia | apply H].
Qed.

Section RunsMore.

Variable env : Env.
Variable self : WebScraper.
Variable keywords : list string.
Variable max_depth : Z.
Variable max_pages : Z.

(** The links put in the queue parse with the scheme [http] or [https]. *)
Lemma enqueue_links_http (url : string) (depth : Z)
    (visited : list string) (l : list element) :
  forall q0 q1,
    enqueue_links env url depth visited l q0 = Return q1 ->
    exists new,
      q1 = (q0 ++ new)%list
      /\ Forall
           (fun e => snd e = (depth + 1)%Z
                     /\ exists p, parse env (fst e) = Return p
                                  /\ http_scheme (scheme p) = true)
           new.
Proof.
  induction l as [| a l IH]; intros q0 q1; simpl.
  - intros [= <-]. exists []. now rewrite app_nil_r.
  - destruct (href a) as [h | e]; simpl; [| discriminate].
    destruct (urljoin env url h) as [link | e]; simpl; [| discriminate].
    destruct (parse env link) as [parsed | e] eqn:Hp; simpl;
      [| discriminate].
    intros H. apply IH in H. destruct H as (new & -> & Hnew).
    destruct (http_scheme (scheme parsed)) eqn:Hs; simpl.
    + destruct (negb (mem link visited)).
      * exists ((link, (depth + 1)%Z) :: new). rewrite <- app_assoc.
        split; [reflexivity |]. constructor; [| exact Hnew].
        simpl. split; [reflexivity |]. exists parsed. auto.
      * now exists new.
    + now exists new.
Qed.

(** A turn takes the head of the queue and adds links at its end; it
    counts the page when, and only when, [get_page] returned one. *)
Lemma turn_queue_and_count (st st' : crawl) (t : trace) (url : string)
    (depth : Z) (rest : list (string * Z)) :
  q st = (url, depth) :: rest ->
  turn env self keywords max_depth st = (Return st', t) ->
  (exists new,
     q st' = (rest ++ new)%list
     /\ Forall
          (fun e => snd e = (depth + 1)%Z
                    /\ exists p, parse env (fst e) = Return p
                                 /\ http_scheme (scheme p) = true)
          new)
  /\ pages_crawled st'
     = (pages_crawled st
        + if negb (mem url (visited st) || (max_depth <? depth)%Z)
             && fetched env self url
          then 1 else 0)%Z.
Proof.
  intros Hq. unfold turn, fetched. rewrite Hq.
  destruct (mem url (visited st) || (max_depth <? depth)%Z).
  - intros [= <- <-]. simpl. split; [| lia].
    exists []. now rewrite app_nil_r.
  - destruct (get_page env self url) as [[[soup |] | e] tg];
      cbn [bind emit ret fst snd app negb andb].
    + destruct (depth <? max_depth)%Z.
      * destruct (enqueue_links env url depth (url :: visited st)
                    (anchors soup) rest) as [q1 | e] eqn:Hl;
          cbn [lift bind ret]; [| discriminate].
        intros [= <- <-]. simpl. split; [| reflexivity].
        exact (enqueue_links_http _ _ _ _ _ _ Hl).
      * cbn [lift bind ret]. intros [= <- <-]. simpl.
        split; [| reflexivity]. exists []. now rewrite app_nil_r.
    + intros [= <- <-]. simpl. split; [| lia].
      exists []. now rewrite app_nil_r.
    + discriminate.
Qed.

End RunsMore.

(** ** The boundary of the fetch *)




(** The keyword search ends, whatever the pages and their links: some
    amount of fuel gives a result, and more fuel gives the same result. *)
Theorem search_terminates
    (env : Env) (self : WebScraper) (keywords : list string)
    (max_depth max_pages : Z) (start_urls : list string) :
  exists fuel r,
    search_keywords_across_web env self keywords max_depth max_pages fuel
      start_urls = Some r
    /\ forall fuel',
         fuel <= fuel' ->
         search_keywords_across_web env self keywords max_depth max_pages
           fuel' start_urls = Some r.
Proof.
  destruct (while_terminates env self keywords max_depth max_pages
              (start start_urls)) as (fuel & r & Hw).
  exists fuel, (st <- r ;; ret (results st))%monad.
  unfold search_keywords_across_web. rewrite Hw. split; [reflexivity |].
  intros fuel' Hle.
  now rewrite (while_fuel env self keywords max_depth max_pages fuel _ r
                 fuel' Hw Hle).
Qed.

(** The page budget.  In every traversal the number of visits for which
    [get_page] returned a page is at most [max_pages] (none when
    [max_pages] is not positive).  A visit whose fetch fails is not counted
    against the budget: when the loop ends, its counter of pages is the
    number of the visits that got a page, whatever the number of the
    others, and the loop has ended because the queue is empty or because
    that many pages were fetched. *)
Theorem search_respects_page_budget
    (env : Env) (self : WebScraper) (keywords : list string)
    (max_depth max_pages : Z) (fuel : nat) (start_urls : list string)
    (o : outcome (list record)) (tr : trace) :
  search_keywords_across_web env self keywords max_depth max_pages fuel
    start_urls = Some (o, tr) ->
  List.length (filter (fetched env self) (map fst (visits tr)))
  <= Z.to_nat max_pages
  /\ exists o',
       while env self keywords max_depth max_pages fuel (start start_urls)
       = Some (o', tr)
       /\ forall st',
            o' = Return st' ->
            pages_crawled st'
            = Z.of_nat
                (List.length
                   (filter (fetched env self) (map fst (visits tr))))
            /\ (q st' = [] \/ (max_pages <= pages_crawled st')%Z).
Proof.
  intros Hrun. apply search_runs in Hrun. destruct Hrun as (o' & Hw & _).
  assert (Hinv : forall fuel st o tr,
             while env self keywords max_depth max_pages fuel st
             = Some (o, tr) ->
             List.length (filter (fetched env self) (map fst (visits tr)))
             <= Z.to_nat (max_pages - pages_crawled st)
             /\ forall st',
                  o = Return st' ->
                  pages_crawled st'
                  = (pages_crawled st
                     + Z.of_nat
                         (List.length
                            (filter (fetched env self)
                               (map fst (visits tr)))))%Z
                  /\ continues max_pages st' = false).
  { clear.
    apply (while_runs env self keywords max_depth max_pages
             (fun st o tr =>
                List.length
                  (filter (fetched env self) (map fst (visits tr)))
                <= Z.to_nat (max_pages - pages_crawled st)
                /\ forall st',
                     o = Return st' ->
                     pages_crawled st'
                     = (pages_crawled st
                        + Z.of_nat
                            (List.length
                               (filter (fetched env self)
                                  (map fst (visits tr)))))%Z
                     /\ continues max_pages st' = false)).
    - intros st Hc. simpl. split; [lia |].
      intros st' [= <-]. split; [lia | exact Hc].
    - intros st e t Hc Ht.
      assert (Hpages : (pages_crawled st < max_pages)%Z).
      { unfold continues in Hc. destruct (q st); [discriminate |].
        now apply Z.ltb_lt. }
      split; [| discriminate].
      destruct (turn_cases env self keywords max_depth max_pages st _ _ Hc
                  Ht)
        as (url & depth & rest & Hq & [(_ & _ & [=]) | (_ & _ & -> & _)]).
      simpl. rewrite get_page_visits. simpl.
      destruct (fetched env self url); simpl; lia.
    - intros st st' t o' t' Hc Ht [IH IH'].
      assert (Hpages : (pages_crawled st < max_pages)%Z).
      { unfold continues in Hc. destruct (q st); [discriminate |].
        now apply Z.ltb_lt. }
      rewrite visits_app, map_app, filter_app, length_app.
      destruct (turn_cases env self keywords max_depth max_pages st _ _ Hc
                  Ht)
        as (url & depth & rest & Hq & Hcase).
      destruct (turn_queue_and_count env self keywords max_depth st st' t
                  url depth rest Hq Ht) as [_ Hcount].
      destruct Hcase as [(Hd & -> & _) | (Hm & Hd & -> & _)].
      + rewrite Hd in Hcount. simpl in Hcount. simpl.
        replace (pages_crawled st') with (pages_crawled st) in IH, IH'
          by lia.
        split; [exact IH | exact IH'].
      + apply Z.ltb_ge in Hd. rewrite Hm, Hd in Hcount. simpl in Hcount.
        simpl. rewrite get_page_visits. simpl.
        destruct (fetched env self url); simpl.
        * rewrite Hcount in IH, IH'. split; [lia |].
          intros st'' Ho. destruct (IH' st'' Ho) as [Hp Hstop].
          split; [lia | exact Hstop].
        * replace (pages_crawled st') with (pages_crawled st) in IH, IH'
            by lia.
          split; [exact IH | exact IH']. }
  destruct (Hinv fuel (start start_urls) o' tr Hw) as [Hle Hend].
  simpl in Hle. rewrite Z.sub_0_r in Hle. split; [exact Hle |].
  exists o'. split; [exact Hw |]. intros st' Ho.
  destruct (Hend st' Ho) as [Hp Hstop]. simpl in Hp. split; [exact Hp |].
  unfold continues in Hstop. destruct (q st'); [now left | right].
  now apply Z.ltb_ge.
Qed.

(** A budget of one page and four seeds: the first is answered 404 and the
    request for the second times out, neither is counted, and the third is
    fetched; the fourth is not visited. *)
Lemma search_respects_page_budget_witness :
  search_keywords_across_web Sample.env Sample.direct ["cat"] 0 1 10
    ["https://x.test/none"; "https://x.test/slow"; "https://x.test";
     "https://x.test/linked"]
  = Some (Return [KeywordRecord "https://x.test" "cat" 2],
          [Visit "https://x.test/none" 0; HttpGet "https://x.test/none";
           Log ERROR "Error fetching https://x.test/none: HTTPError";
           Visit "https://x.test/slow" 0; HttpGet "https://x.test/slow";
           Log ERROR "Error fetching https://x.test/slow: Read timed out";
           Visit "https://x.test" 0; HttpGet "https://x.test"; Sleep 1])
  /\ filter (fetched Sample.env Sample.direct)
       ["https://x.test/none"; "https://x.test/slow"; "https://x.test"]
     = ["https://x.test"]
  /\ List.length
       (filter (fetched Sample.env Sample.direct)
          ["https://x.test/none"; "https://x.test/slow"; "https://x.test"])
     <= 1.
Proof.
  split; [reflexivity |]. split; [reflexivity |].
  exact (proj1 (search_respects_page_budget Sample.env Sample.direct ["cat"]
                  0 1 10
                  ["https://x.test/none"; "https://x.test/slow";
                   "https://x.test"; "https://x.test/linked"]
                  (Return [KeywordRecord "https://x.test" "cat" 2])
                  _ eq_refl)).
Defined.

(** Breadth first: along every traversal the depths of the visits never
    decrease, so every page of one level is visited before any page of the
    next. *)
Theorem search_visits_level_by_level
    (env : Env) (self : WebScraper) (keywords : list string)
    (max_depth max_pages : Z) (fuel : nat) (start_urls : list string)
    (o : outcome (list record)) (tr : trace) :
  search_keywords_across_web env self keywords max_depth max_pages fuel
    start_urls = Some (o, tr) ->
  nondecreasing 0 (map snd (visits tr)).
Proof.
  intros Hrun. apply search_runs in Hrun. destruct Hrun as (o' & Hw & _).
  assert (Hrun : forall fuel st o tr,
             while env self keywords max_depth max_pages fuel st
             = Some (o, tr) ->
             bfs_queue (q st) ->
             match q st with
             | [] => visits tr = []
             | (_, d) :: _ => nondecreasing d (map snd (visits tr))
             end).
  { clear.
    apply (while_runs env self keywords max_depth max_pages
             (fun st _ tr =>
                bfs_queue (q st) ->
                match q st with
                | [] => visits tr = []
                | (_, d) :: _ => nondecreasing d (map snd (visits tr))
                end)).
    - intros st _ _. destruct (q st) as [| [u d] l]; simpl; auto.
    - intros st e t Hc Ht _.
      destruct (turn_cases env self keywords max_depth max_pages st _ _ Hc
                  Ht)
        as (url & depth & rest & Hq & [(_ & _ & [=]) | (_ & _ & -> & _)]).
      rewrite Hq. simpl. rewrite get_page_visits. simpl. split; [lia | exact I].
    - intros st st' t o t' Hc Ht IH Hbfs. rewrite visits_app, map_app.
      destruct (turn_cases env self keywords max_depth max_pages st _ _ Hc
                  Ht)
        as (url & depth & rest & Hq & Hcase).
      destruct (turn_queue_and_count env self keywords max_depth st st' t
                  url depth rest Hq Ht) as [(new & Hq' & Hnew) _].
      rewrite Hq in Hbfs |- *.
      assert (Hnew' : Forall (fun e => snd e = (depth + 1)%Z) new).
      { apply Forall_impl with (2 := Hnew). now intros e [He _]. }
      destruct (bfs_queue_next url depth rest new Hbfs Hnew')
        as [Hnext Hhead].
      rewrite <- Hq' in Hnext, Hhead. specialize (IH Hnext).
      assert (Hrest : nondecreasing depth (map snd (visits t'))).
      { destruct (q st') as [| [u d] l].
        - rewrite IH. exact I.
        - now apply (nondecreasing_lower _ d). }
      destruct Hcase as [(_ & -> & _) | (_ & _ & -> & _)].
      + exact Hrest.
      + simpl. rewrite get_page_visits. simpl. split; [lia | exact Hrest]. }
  specialize (Hrun fuel (start start_urls) o' tr Hw).
  specialize (Hrun (start_bfs_queue start_urls)). simpl in Hrun.
  destruct start_urls as [| u l]; simpl in Hrun.
  - rewrite Hrun. exact I.
  - exact Hrun.
Qed.

Lemma search_visits_level_by_level_witness : nondecreasing 0 [0; 1]%Z.
Proof.
  exact (search_visits_level_by_level Sample.env Sample.polite ["cat"] 1 30
           10 ["https://x.test/linked"]
           (Return [KeywordRecord "https://x.test/linked" "cat" 2;
                    KeywordRecord "https://x.test/more" "cat" 1])
           _ eq_refl).
Defined.

(** Every address the traversal visits is a seed, at depth 0, or a link at
    a greater depth whose address parses with the scheme [http] or
    [https]: a link with another scheme is never followed. *)
Theorem search_visits_seeds_and_http_links
    (env : Env) (self : WebScraper) (keywords : list string)
    (max_depth max_pages : Z) (fuel : nat) (start_urls : list string)
    (o : outcome (list record)) (tr : trace) (url : string) (depth : Z) :
  search_keywords_across_web env self keywords max_depth max_pages fuel
    start_urls = Some (o, tr) ->
  In (Visit url depth) tr ->
  seed_or_link env start_urls (url, depth).
Proof.
  intros Hrun Hin. apply search_runs in Hrun. destruct Hrun as (o' & Hw & _).
  apply In_visits in Hin. revert url depth Hin.
  assert (Hrun : forall fuel st o tr,
             while env self keywords max_depth max_pages fuel st
             = Some (o, tr) ->
             Forall (seed_or_link env start_urls) (q st) ->
             Forall (seed_or_link env start_urls) (visits tr)).
  { clear.
    apply (while_runs env self keywords max_depth max_pages
             (fun st _ tr =>
                Forall (seed_or_link env start_urls) (q st) ->
                Forall (seed_or_link env start_urls) (visits tr))).
    - intros st _ _. constructor.
    - intros st e t Hc Ht Hq0.
      destruct (turn_cases env self keywords max_depth max_pages st _ _ Hc
                  Ht)
        as (url & depth & rest & Hq & [(_ & _ & [=]) | (_ & _ & -> & _)]).
      rewrite Hq in Hq0. inversion Hq0 as [| ? ? Hhead Hrest]; subst.
      simpl. rewrite get_page_visits.
      apply Forall_cons; [exact Hhead | constructor].
    - intros st st' t o t' Hc Ht IH Hq0. rewrite visits_app.
      destruct (turn_cases env self keywords max_depth max_pages st _ _ Hc
                  Ht)
        as (url & depth & rest & Hq & Hcase).
      destruct (turn_queue_and_count env self keywords max_depth st st' t
                  url depth rest Hq Ht) as [(new & Hq' & Hnew) _].
      rewrite Hq in Hq0. inversion Hq0 as [| ? ? Hhead Hrest]; subst.
      assert (Hdepth : (0 <= depth)%Z).
      { destruct Hhead as [[H _] | [H _]]; simpl in H; lia. }
      apply Forall_app. split.
      + destruct Hcase as [(_ & -> & _) | (_ & _ & -> & _)];
          [constructor |].
        simpl. rewrite get_page_visits.
        apply Forall_cons; [exact Hhead | constructor].
      + apply IH. rewrite Hq'. apply Forall_app. split; [exact Hrest |].
        apply Forall_impl with (2 := Hnew).
        intros [u d] [Hd Hp]. simpl in Hd, Hp. right. simpl.
        split; [lia | exact Hp]. }
  specialize (Hrun fuel (start start_urls) o' tr Hw).
  assert (Hseeds : Forall (seed_or_link env start_urls)
                     (q (start start_urls))).
  { apply Forall_forall. intros [u d] Hu. simpl in Hu.
    apply in_map_iff in Hu. destruct Hu as (u' & [= <- <-] & Hu).
    left. simpl. auto. }
  specialize (Hrun Hseeds). rewrite Forall_forall in Hrun.
  intros url depth Hin. exact (Hrun _ Hin).
Qed.

Lemma search_visits_seeds_and_http_links_witness :
  seed_or_link Sample.env ["https://x.test/linked"]
    ("https://x.test/more", 1%Z).
Proof.
  refine (search_visits_seeds_and_http_links Sample.env Sample.direct ["cat"]
            1 30 10 ["https://x.test/linked"]
            (Return [KeywordRecord "https://x.test/linked" "cat" 2;
                     KeywordRecord "https://x.test/more" "cat" 1])
            _ "https://x.test/more" 1 eq_refl _).
  do 3 right. now left.
Defined.

(** The results of a keyword search that returns are the records of the
    visited pages, page after page in the order of the visits and, for
    each page, keyword after keyword in the order of the list. *)
Theorem search_results_follow_the_visits
    (env : Env) (self : WebScraper) (keywords : list string)
    (max_depth max_pages : Z) (fuel : nat) (start_urls : list string)
    (rs : list record) (tr : trace) :
  search_keywords_across_web env self keywords max_depth max_pages fuel
    start_urls = Some (Return rs, tr) ->
  rs = flat_map (page_records env self keywords) (map fst (visits tr)).
Proof.
  intros Hrun. apply search_runs in Hrun.
  destruct Hrun as ([st | e] & Hw & Ho); [| discriminate].
  injection Ho as ->. apply while_results in Hw. exact Hw.
Qed.

Lemma search_results_follow_the_visits_witness :
  [KeywordRecord "https://x.test/linked" "cat" 2;
   KeywordRecord "https://x.test/linked" "more" 1;
   KeywordRecord "https://x.test/more" "cat" 1]
  = flat_map (page_records Sample.env Sample.direct ["cat"; "more"])
      ["https://x.test/linked"; "https://x.test/more"].
Proof.
  exact (search_results_follow_the_visits Sample.env Sample.direct
           ["cat"; "more"] 1 30 10 ["https://x.test/linked"] _ _ eq_refl).
Defined.

(** Without a budget nothing is fetched: when [max_pages] is not positive,
    when [max_depth] is negative or when there is no seed, the search
    returns no record and causes no event. *)
Theorem search_without_budget_fetches_nothing
    (env : Env) (self : WebScraper) (keywords : list string)
    (max_depth max_pages : Z) (fuel : nat) (start_urls : list string) :
  (max_pages <= 0)%Z \/ (max_depth < 0)%Z \/ start_urls = [] ->
  List.length start_urls <= fuel ->
  search_keywords_across_web env self keywords max_depth max_pages fuel
    start_urls = Some (Return [], []).
Proof.
  intros Hcase Hfuel. unfold search_keywords_across_web.
  assert (Hrun : forall l fuel v,
             (max_pages <= 0)%Z \/ (max_depth < 0)%Z \/ l = [] ->
             List.length l <= fuel ->
             exists st',
               while env self keywords max_depth max_pages fuel
                 {| q := map (fun url => (url, 0%Z)) l; visited := v;
                    results := []; pages_crawled := 0 |}
               = Some (Return st', [])
               /\ results st' = []).
  { clear. induction l as [| u l IH]; intros fuel v Hcase Hfuel.
    - exists {| q := []; visited := v; results := []; pages_crawled := 0 |}.
      split; [destruct fuel; reflexivity | reflexivity].
    - destruct (0 <? max_pages)%Z eqn:Hpc.
      + destruct fuel as [| fuel]; [simpl in Hfuel; lia |].
        apply Z.ltb_lt in Hpc.
        assert (Hd : (max_depth < 0)%Z).
        { destruct Hcase as [H | [H | H]]; [lia | exact H | discriminate]. }
        destruct (IH fuel v (or_intror (or_introl Hd))) as (st' & Hw & Hr);
          [simpl in Hfuel; lia |].
        exists st'. split; [| exact Hr].
        apply Z.ltb_lt in Hpc, Hd.
        cbn [while continues q map pages_crawled]. rewrite Hpc.
        unfold turn. cbn [q visited results pages_crawled].
        rewrite Hd, orb_true_r. cbn [ret]. rewrite Hw. reflexivity.
      + exists {| q := map (fun url => (url, 0%Z)) (u :: l); visited := v;
                  results := []; pages_crawled := 0 |}.
        split; [| reflexivity].
        destruct fuel; cbn [while continues q map pages_crawled];
          now rewrite Hpc. }
  destruct (Hrun start_urls fuel [] Hcase Hfuel) as (st' & Hw & Hr).
  unfold start. rewrite Hw. simpl. now rewrite Hr.
Qed.

Lemma search_without_budget_fetches_nothing_witness :
  search_keywords_across_web Sample.env Sample.direct ["cat"] (-1) 30 1
    ["https://x.test"]
  = Some (Return [], []).
Proof.
  apply (search_without_budget_fetches_nothing Sample.env Sample.direct
           ["cat"] (-1) 30 1 ["https://x.test"]).
  - right. left. reflexivity.
  - simpl. lia.
Defined.



(** ** The interface *)

Lemma append_empty_r (s : string) : (s ++ EmptyString)%string = s.
Proof. induction s as [| c s IH]; simpl; [reflexivity | now rewrite IH]. Qed.

Lemma append_assoc (a b c : string) :
  ((a ++ b) ++ c)%string = (a ++ b ++ c)%string.
Proof. induction a as [| x a IH]; simpl; [reflexivity | now rewrite IH]. Qed.

Lemma rev_string_acc (s : string) :
  forall acc,
    Py.rev_string acc s = (Py.rev_string EmptyString s ++ acc)%string.
Proof.
  induction s as [| c s IH]; intros acc; simpl; [reflexivity |].
  rewrite (IH (String c acc)), (IH (String c EmptyString)).
  now rewrite append_assoc.
Qed.

Lemma rev_string_append (a b : string) :
  Py.rev_string EmptyString (a ++ b)
  = (Py.rev_string EmptyString b ++ Py.rev_string EmptyString a)%string.
Proof.
  induction a as [| c a IH]; simpl.
  - now rewrite append_empty_r.
  - rewrite (rev_string_acc (a ++ b)), (rev_string_acc a), IH.
    now rewrite append_assoc.
Qed.

Lemma rev_string_involutive (s : string) :
  Py.rev_string EmptyString (Py.rev_string EmptyString s) = s.
Proof.
  induction s as [| c s IH]; simpl; [reflexivity |].
  rewrite (rev_string_acc s (String c EmptyString)), rev_string_append, IH.
  reflexivity.
Qed.

Lemma lstrip_by_idempotent (p : ascii -> bool) (s : string) :
  Py.lstrip_by p (Py.lstrip_by p s) = Py.lstrip_by p s.
Proof.
  induction s as [| c s IH]; simpl; [reflexivity |].
  destruct (p c) eqn:Hc; [exact IH |]. simpl. now rewrite Hc.
Qed.

(** A string stripped on the left is empty or begins with a character that
    is kept. *)
Lemma lstrip_by_head (p : ascii -> bool) (s : string) :
  Py.lstrip_by p s = EmptyString
  \/ exists c t, Py.lstrip_by p s = String c t /\ p c = false.
Proof.
  induction s as [| c s IH]; simpl; [now left |].
  destruct (p c) eqn:Hc; [exact IH |]. right. now exists c, s.
Qed.

Lemma lstrip_by_last (p : ascii -> bool) (c : ascii) (u : string) :
  p c = false ->
  Py.lstrip_by p (u ++ String c EmptyString)
  = (Py.lstrip_by p u ++ String c EmptyString)%string.
Proof.
  intros Hc. induction u as [| d u IH]; simpl.
  - now rewrite Hc.
  - destruct (p d); [exact IH | reflexivity].
Qed.

Lemma rstrip_by_cons (p : ascii -> bool) (c : ascii) (t : string) :
  p c = false ->
  Py.rstrip_by p (String c t) = String c (Py.rstrip_by p t).
Proof.
  intros Hc. unfold Py.rstrip_by. simpl.
  rewrite (rev_string_acc t), (lstrip_by_last p c _ Hc), rev_string_append.
  reflexivity.
Qed.

Lemma rstrip_by_idempotent (p : ascii -> bool) (s : string) :
  Py.rstrip_by p (Py.rstrip_by p s) = Py.rstrip_by p s.
Proof.
  unfold Py.rstrip_by.
  now rewrite rev_string_involutive, lstrip_by_idempotent.
Qed.

(** Stripping a stripped string changes nothing. *)
Lemma strip_idempotent (s : string) : Py.strip (Py.strip s) = Py.strip s.
Proof.
  unfold Py.strip.
  destruct (lstrip_by_head Py.isspace s) as [-> | (c & t & -> & Hc)].
  - reflexivity.
  - rewrite (rstrip_by_cons _ c t Hc). simpl. rewrite Hc.
    rewrite (rstrip_by_cons _ c _ Hc). now rewrite rstrip_by_idempotent.
Qed.

Lemma contains_char_append (c : ascii) (a b : string) :
  Py.contains_char c (a ++ b)
  = Py.contains_char c a || Py.contains_char c b.
Proof.
  induction a as [| d a IH]; simpl; [reflexivity |].
  now rewrite IH, orb_assoc.
Qed.

Lemma contains_char_rev (c : ascii) (s : string) :
  Py.contains_char c (Py.rev_string EmptyString s) = Py.contains_char c s.
Proof.
  induction s as [| d s IH]; simpl; [reflexivity |].
  rewrite (rev_string_acc s (String d EmptyString)), contains_char_append, IH.
  simpl. rewrite orb_false_r. apply orb_comm.
Qed.

Lemma contains_char_lstrip (c : ascii) (p : ascii -> bool) (s : string) :
  Py.contains_char c s = false ->
  Py.contains_char c (Py.lstrip_by p s) = false.
Proof.
  induction s as [| d s IH]; simpl; [reflexivity |].
  intros H. apply orb_false_elim in H as [Hd Hs].
  destruct (p d); [now apply IH |]. simpl. now rewrite Hd, Hs.
Qed.

(** Stripping brings in no character. *)
Lemma contains_char_strip (c : ascii) (s : string) :
  Py.contains_char c s = false -> Py.contains_char c (Py.strip s) = false.
Proof.
  intros H. unfold Py.strip, Py.rstrip_by.
  rewrite contains_char_rev. apply contains_char_lstrip.
  rewrite contains_char_rev. now apply contains_char_lstrip.
Qed.

(** The pieces of a split do not contain the separator. *)
Lemma split_pieces (sep : ascii) (s : string) :
  Gui.split sep s <> []
  /\ Forall (fun piece => Py.contains_char sep piece = false)
       (Gui.split sep s).
Proof.
  induction s as [| c s [Hne IH]]; simpl.
  - split; [discriminate | now repeat constructor].
  - destruct (Ascii.eqb c sep) eqn:Hc.
    + split; [discriminate | now constructor].
    + destruct (Gui.split sep s) as [| piece rest]; [contradiction |].
      split; [discriminate |]. inversion IH as [| ? ? Hpiece Hrest]; subst.
      constructor; [| exact Hrest]. simpl.
      now rewrite Ascii.eqb_sym, Hc, Hpiece.
Qed.

(** What remains of the pieces of a split after stripping them and leaving
    out the empty ones: each is not empty, is stripped and does not contain
    the separator. *)
Lemma stripped_pieces (sep : ascii) (keep : string -> bool) (s w : string) :
  In w (filter keep (map Py.strip (Gui.split sep s))) ->
  keep w = true
  /\ Py.strip w = w
  /\ Py.contains_char sep w = false.
Proof.
  intros Hin. apply filter_In in Hin. destruct Hin as [Hin Hkeep].
  apply in_map_iff in Hin. destruct Hin as (piece & <- & Hin).
  split; [exact Hkeep |]. split; [apply strip_idempotent |].
  apply contains_char_strip.
  destruct (split_pieces sep s) as [_ H]. rewrite Forall_forall in H.
  now apply H.
Qed.

(** A selector that [get_custom_selectors] returns is a line of the box:
    it is not empty, does not begin with [#], has no white space around it
    and holds no line break. *)
Theorem get_custom_selectors_are_clean_lines (content s : string) :
  In s (Gui.get_custom_selectors content) ->
  s <> EmptyString
  /\ prefix "#" s = false
  /\ Py.strip s = s
  /\ Py.contains_char Gui.newline s = false.
Proof.
  unfold Gui.get_custom_selectors.
  destruct (Py.is_empty (Py.strip content)); [intros [] |].
  intros Hin. apply stripped_pieces in Hin.
  destruct Hin as (Hkeep & Hstrip & Hnl).
  unfold Gui.selector_line in Hkeep. apply andb_prop in Hkeep as [Hne Hc].
  repeat split; auto.
  - intros ->. discriminate.
  - now apply negb_true_iff in Hc.
Qed.

Lemma get_custom_selectors_are_clean_lines_witness :
  ".story" <> EmptyString
  /\ prefix "#" ".story" = false
  /\ Py.strip ".story" = ".story"
  /\ Py.contains_char Gui.newline ".story" = false.
Proof.
  apply (get_custom_selectors_are_clean_lines
           ("# .article-title" ++ String Gui.newline "  .story  "
            ++ String Gui.newline "# .product-name")).
  vm_compute. now left.
Defined.

Lemma count_from_le_length (sub s : string) :
  forall skip, Py.count_from sub s skip <= String.length s.
Proof.
  induction s as [| c s IH]; intros skip; [simpl; lia |].
  cbn [Py.count_from String.length].
  destruct skip as [| k].
  - destruct (prefix sub (String c s)).
    + specialize (IH (String.length sub - 1)). lia.
    + specialize (IH 0). lia.
  - specialize (IH k). lia.
Qed.

(** A keyword that [scrape_data] passes to the search is not empty, has no
    white space around it and holds no comma.  So the search is never
    asked for the empty keyword, which [count] finds once more than the
    text has characters: the count of such a keyword is at most the length
    of the text. *)
Theorem scrape_data_keywords_are_clean (entry w : string) :
  In w (Gui.keywords_of entry) ->
  w <> EmptyString
  /\ Py.strip w = w
  /\ Py.contains_char "," w = false
  /\ forall text, Py.count text w <= String.length text.
Proof.
  unfold Gui.keywords_of. intros Hin. apply stripped_pieces in Hin.
  destruct Hin as (Hkeep & Hstrip & Hcomma).
  assert (Hne : w <> EmptyString) by (intros ->; discriminate).
  repeat split; auto.
  intros text. unfold Py.count. destruct w; [contradiction |].
  apply count_from_le_length.
Qed.

Lemma scrape_data_keywords_are_clean_witness :
  "dog" <> EmptyString
  /\ Py.strip "dog" = "dog"
  /\ Py.contains_char "," "dog" = false
  /\ forall text, Py.count text "dog" <= String.length text.
Proof.
  apply (scrape_data_keywords_are_clean "cat, dog ,, bird").
  vm_compute. right. now left.
Defined.

(** An address that [start_scraping] accepts parses with a scheme and a
    network location, and [get_page] does not raise for it, whatever the
    scraper: the error that [get_page] lets through for an address that
    does not parse cannot come from the address entry. *)
Theorem start_scraping_accepts_safe_addresses
    (env : Env) (self : WebScraper) (entry : string) :
  Gui.start_scraping_accepts env entry = true ->
  (exists p,
     parse env (Py.strip entry) = Return p
     /\ scheme p <> EmptyString /\ netloc p <> EmptyString)
  /\ exists r, fst (get_page env self (Py.strip entry)) = Return r.
Proof.
  unfold Gui.start_scraping_accepts.
  destruct (Py.is_empty (Py.strip entry)); [discriminate |].
  destruct (parse env (Py.strip entry)) as [p | e] eqn:Hp; [| discriminate].
  intros H. apply negb_true_iff, orb_false_elim in H as [Hs Hn]. split.
  - exists p. split; [reflexivity |].
    split; intros Heq; rewrite Heq in *; discriminate.
  - exact (get_page_returns env self _ p Hp).
Qed.

Lemma start_scraping_accepts_safe_addresses_witness :
  exists r,
    fst (get_page Sample.env Sample.polite (Py.strip " https://x.test "))
    = Return r.
Proof.
  apply (start_scraping_accepts_safe_addresses Sample.env Sample.polite
           " https://x.test ").
  reflexivity.
Defined.

Lemma bump_sum (k : string) (d : list (string * nat)) :
  list_sum (map snd (Gui.bump k d)) = S (list_sum (map snd d)).
Proof.
  induction d as [| [k' n] d IH]; simpl; [reflexivity |].
  destruct (String.eqb k k'); simpl; [reflexivity | rewrite IH; lia].
Qed.

Lemma bump_keys (k k0 : string) (d : list (string * nat)) :
  In k0 (map fst (Gui.bump k d)) <-> k0 = k \/ In k0 (map fst d).
Proof.
  induction d as [| [k' n] d IH]; simpl; [intuition congruence |].
  destruct (String.eqb_spec k k') as [-> | Hne]; simpl.
  - intuition congruence.
  - rewrite IH. intuition congruence.
Qed.

Lemma bump_NoDup (k : string) (d : list (string * nat)) :
  NoDup (map fst d) -> NoDup (map fst (Gui.bump k d)).
Proof.
  induction d as [| [k' n] d IH]; simpl.
  - intros _. constructor; [intros [] | constructor].
  - intros H. inversion H as [| ? ? Hnotin Hd]; subst.
    destruct (String.eqb_spec k k') as [-> | Hne]; simpl.
    + now constructor.
    + constructor; [| now apply IH].
      rewrite bump_keys. intros [-> | Hin]; [congruence | contradiction].
Qed.

(** What the loop of [show_statistics] keeps true of its counters. *)
Lemma tally_counts (l : list record) :
  forall st,
    let st' := fold_left Gui.tally l st in
    Gui.total_items st' = Gui.total_items st
    /\ list_sum (map snd (Gui.data_types st'))
       = list_sum (map snd (Gui.data_types st)) + List.length l
    /\ list_sum (map snd (Gui.sources st'))
       = list_sum (map snd (Gui.sources st)) + List.length l
    /\ Gui.items_with_links st' <= Gui.items_with_links st + List.length l
    /\ List.length (Gui.text_lengths st')
       <= List.length (Gui.text_lengths st) + List.length l
    /\ (NoDup (map fst (Gui.data_types st)) ->
        NoDup (map fst (Gui.data_types st')))
    /\ (NoDup (map fst (Gui.sources st)) ->
        NoDup (map fst (Gui.sources st'))).
Proof.
  induction l as [| r l IH]; intros st; cbn [fold_left List.length].
  - repeat split; auto; lia.
  - destruct (IH (Gui.tally st r)) as (H1 & H2 & H3 & H4 & H5 & H6 & H7).
    cbv zeta. rewrite H1, H2, H3. unfold Gui.tally at 1 2 3 4 5 6.
    cbn [Gui.total_items Gui.data_types Gui.sources].
    rewrite !bump_sum. repeat split; try lia.
    + etransitivity; [exact H4 |]. unfold Gui.tally.
      cbn [Gui.items_with_links].
      destruct (Gui.has r "link" || Gui.has r "url"); lia.
    + etransitivity; [exact H5 |]. unfold Gui.tally.
      cbn [Gui.text_lengths].
      destruct (Py.is_empty _); [lia |]. rewrite length_app. simpl. lia.
    + intros H. apply H6. unfold Gui.tally. cbn [Gui.data_types].
      now apply bump_NoDup.
    + intros H. apply H7. unfold Gui.tally. cbn [Gui.sources].
      now apply bump_NoDup.
Qed.

(** The statistics count every item once under its type and once under its
    source: the counts of the types add up to the number of items, and so
    do the counts of the sources; no type and no source is listed twice.
    The items with links and the text lengths are at most as many as the
    items. *)
Theorem show_statistics_counts_every_item
    (scraped_data : list record) (st : Gui.stats) :
  Gui.show_statistics scraped_data = Some st ->
  Gui.total_items st = List.length scraped_data
  /\ list_sum (map snd (Gui.data_types st)) = List.length scraped_data
  /\ list_sum (map snd (Gui.sources st)) = List.length scraped_data
  /\ NoDup (map fst (Gui.data_types st))
  /\ NoDup (map fst (Gui.sources st))
  /\ Gui.items_with_links st <= List.length scraped_data
  /\ List.length (Gui.text_lengths st) <= List.length scraped_data.
Proof.
  unfold Gui.show_statistics.
  destruct scraped_data as [| r l]; [discriminate |].
  intros [= <-].
  destruct (tally_counts (r :: l)
              {| Gui.total_items := List.length (r :: l);
                 Gui.data_types := []; Gui.sources := [];
                 Gui.items_with_links := 0; Gui.text_lengths := [] |})
    as (H1 & H2 & H3 & H4 & H5 & H6 & H7).
  cbn [Gui.total_items Gui.data_types Gui.sources Gui.items_with_links
       Gui.text_lengths map list_sum] in *.
  repeat split; try assumption; try lia.
  - apply H6. constructor.
  - apply H7. constructor.
Qed.

Lemma show_statistics_counts_every_item_witness :
  exists st,
    Gui.show_statistics
      [KeywordRecord "https://x.test" "cat" 2;
       GenericRecord "abcdefghijklmnopqrstu" EmptyString "p" EmptyString
         "https://x.test/paragraphs"]
    = Some st
    /\ list_sum (map snd (Gui.sources st)) = 2.
Proof.
  eexists. split; [reflexivity |].
  apply (show_statistics_counts_every_item
           [KeywordRecord "https://x.test" "cat" 2;
            GenericRecord "abcdefghijklmnopqrstu" EmptyString "p"
              EmptyString "https://x.test/paragraphs"]).
  reflexivity.
Defined.

Lemma get_or_type (r : record) : Gui.get_or r "type" "unknown" = type_of r.
Proof. destruct r; reflexivity. Qed.

(** Items of one type and one source give one entry in each dictionary. *)
Lemma tally_uniform (t src : string) (l : list record) :
  Forall (fun r => type_of r = t /\ Gui.get_or r "source" "unknown" = src)
    l ->
  forall st n,
    Gui.data_types st = [(t, n)] ->
    Gui.sources st = [(src, n)] ->
    Gui.data_types (fold_left Gui.tally l st) = [(t, n + List.length l)]
    /\ Gui.sources (fold_left Gui.tally l st) = [(src, n + List.length l)].
Proof.
  induction 1 as [| r l [Ht Hs] _ IH]; intros st n Hd Hsrc; simpl.
  - now rewrite Nat.add_0_r.
  - replace (n + S (List.length l)) with (S n + List.length l) by lia.
    apply IH; unfold Gui.tally; simpl.
    + rewrite get_or_type, Ht, Hd. simpl. now rewrite String.eqb_refl.
    + rewrite Hs, Hsrc. simpl. now rewrite String.eqb_refl.
Qed.

Lemma show_statistics_uniform (t src : string) (data : list record) :
  data <> [] ->
  Forall (fun r => type_of r = t /\ Gui.get_or r "source" "unknown" = src)
    data ->
  exists st,
    Gui.show_statistics data = Some st
    /\ Gui.data_types st = [(t, List.length data)]
    /\ Gui.sources st = [(src, List.length data)].
Proof.
  destruct data as [| r l]; [contradiction |]. intros _ H.
  inversion H as [| ? ? [Ht Hs] Hl]; subst.
  eexists. split; [reflexivity |]. cbn [fold_left List.length].
  change (S (List.length l)) with (1 + List.length l) at 2 3.
  apply (tally_uniform (type_of r) (Gui.get_or r "source" "unknown") l Hl
           _ 1);
    unfold Gui.tally; simpl; now rewrite ?get_or_type.
Qed.

Lemma tally_keywords_no_text (l : list record) :
  Forall (fun r => type_of r = "keyword_search") l ->
  forall st,
    Gui.text_lengths (fold_left Gui.tally l st) = Gui.text_lengths st.
Proof.
  induction 1 as [| r l Hr _ IH]; intros st; simpl; [reflexivity |].
  rewrite IH. destruct r; try discriminate. reflexivity.
Qed.

Lemma search_returns_keyword_records
    (env : Env) (self : WebScraper) (keywords : list string)
    (max_depth max_pages : Z) (fuel : nat) (start_urls : list string)
    (rs : list record) (tr : trace) :
  search_keywords_across_web env self keywords max_depth max_pages fuel
    start_urls = Some (Return rs, tr) ->
  Forall (fun r => type_of r = "keyword_search") rs.
Proof.
  intros Hrun. apply search_runs in Hrun.
  destruct Hrun as ([st | e] & Hw & Ho); [| discriminate].
  injection Ho as ->. apply while_results in Hw. rewrite Hw. simpl.
  apply Forall_forall. intros r Hin. apply in_flat_map in Hin.
  destruct Hin as (u & _ & Hin). unfold page_records in Hin.
  destruct (fst (get_page env self u)) as [[soup |] | e]; try contradiction.
  apply In_count_keywords in Hin. destruct Hin as (kw & _ & _ & ->).
  reflexivity.
Qed.

(** The statistics of the results of a keyword search: a keyword record
    has no ['source'] key and no text key, so all the records are counted
    under the one type ['keyword_search'] and the one source ['unknown'],
    and no text length is collected. *)
Theorem show_statistics_of_keyword_search
    (env : Env) (self : WebScraper) (keywords : list string)
    (max_depth max_pages : Z) (fuel : nat) (start_urls : list string)
    (rs : list record) (tr : trace) :
  search_keywords_across_web env self keywords max_depth max_pages fuel
    start_urls = Some (Return rs, tr) ->
  rs <> [] ->
  exists st,
    Gui.show_statistics rs = Some st
    /\ Gui.data_types st = [("keyword_search", List.length rs)]
    /\ Gui.sources st = [("unknown", List.length rs)]
    /\ Gui.text_lengths st = [].
Proof.
  intros Hrun Hne. apply search_returns_keyword_records in Hrun.
  destruct (show_statistics_uniform "keyword_search" "unknown" rs Hne)
    as (st & Hst & Ht & Hs).
  { apply Forall_impl with (2 := Hrun). intros r Hr.
    split; [exact Hr |]. destruct r; try discriminate. reflexivity. }
  exists st. repeat split; auto.
  destruct rs as [| r l]; [contradiction |].
  unfold Gui.show_statistics in Hst. injection Hst as <-.
  exact (tally_keywords_no_text (r :: l) Hrun _).
Qed.

Lemma show_statistics_of_keyword_search_witness :
  exists st,
    Gui.show_statistics
      [KeywordRecord "https://x.test/linked" "cat" 2;
       KeywordRecord "https://x.test/more" "cat" 1]
    = Some st
    /\ Gui.data_types st = [("keyword_search", 2)]
    /\ Gui.sources st = [("unknown", 2)]
    /\ Gui.text_lengths st = [].
Proof.
  refine (show_statistics_of_keyword_search Sample.env Sample.direct ["cat"]
            1 30 10 ["https://x.test/linked"] _ _ eq_refl _).
  discriminate.
Defined.

Lemma scrape_provenance
    (env : Env) (self : WebScraper) (p : profile) (base_url : string)
    (custom_selectors : option (list string)) (rs : list record) :
  fst (scrape env self p base_url custom_selectors) = Return rs ->
  Forall (fun r => type_of r = profile_type p
                   /\ field r "source" = Some base_url) rs.
Proof.
  rewrite scrape_unfold.
  destruct (fst (get_page env self base_url)) as [[soup |] | e];
    [| intros [= <-]; constructor | discriminate].
  destruct (select_first env _ soup _) as [els | e]; [| discriminate].
  intros [= <-]. apply Forall_flat_map, Forall_forall.
  intros x _. apply yield_provenance.
Qed.

(** The statistics of the records of one extraction list one type, that of
    the profile, and one source, the address of the page, each with the
    number of the records. *)
Theorem show_statistics_of_extraction
    (env : Env) (self : WebScraper) (p : profile) (base_url : string)
    (custom_selectors : option (list string)) (rs : list record) :
  fst (scrape env self p base_url custom_selectors) = Return rs ->
  rs <> [] ->
  exists st,
    Gui.show_statistics rs = Some st
    /\ Gui.data_types st = [(profile_type p, List.length rs)]
    /\ Gui.sources st = [(base_url, List.length rs)].
Proof.
  intros Hrs Hne. apply scrape_provenance in Hrs.
  apply (show_statistics_uniform (profile_type p) base_url rs Hne).
  apply Forall_impl with (2 := Hrs). intros r [Ht Hs].
  split; [exact Ht |]. unfold Gui.get_or. now rewrite Hs.
Qed.

Lemma show_statistics_of_extraction_witness :
  exists st,
    Gui.show_statistics
      [ProductRecord "Desk" "No price" EmptyString "https://shop.test/desk"
         EmptyString EmptyString "https://shop.test"]
    = Some st
    /\ Gui.data_types st = [("product", 1)]
    /\ Gui.sources st = [("https://shop.test", 1)].
Proof.
  apply (show_statistics_of_extraction Shop.env Sample.direct Product
           "https://shop.test" None).
  - reflexivity.
  - discriminate.
Defined.

(** A link that cannot be resolved aborts the search: nothing catches the
    error of [urljoin] in the loop over the links.  When the first seed is
    fetched, links are to be followed and the first link of the page makes
    [urljoin] raise, the search raises the same error after this one
    visit, and the records of the page are lost with it. *)
Theorem search_aborts_on_unresolvable_link
    (env : Env) (self : WebScraper) (keywords : list string)
    (max_depth max_pages : Z) (fuel : nat) (url : string)
    (start_urls : list string) (soup : node) (a : element)
    (l : list element) (h e : string) :
  (0 < max_pages)%Z ->
  (0 < max_depth)%Z ->
  fst (get_page env self url) = Return (Some soup) ->
  anchors soup = a :: l ->
  get a "href" = Some h ->
  urljoin env url h = Raise e ->
  search_keywords_across_web env self keywords max_depth max_pages (S fuel)
    (url :: start_urls)
  = Some (Raise e, Visit url 0 :: snd (get_page env self url)).
Proof.
  intros Hpages Hdepth Hpage Ha Hh He.
  apply Z.ltb_lt in Hpages. pose proof Hdepth as Hdepth'.
  apply Z.ltb_lt in Hdepth.
  assert (Hnot : (max_depth <? 0)%Z = false) by (apply Z.ltb_ge; lia).
  unfold search_keywords_across_web, start.
  cbn [while continues q map pages_crawled]. rewrite Hpages.
  unfold turn. cbn [q visited mem existsb orb]. rewrite Hnot.
  destruct (get_page env self url) as [o tg]. simpl in Hpage. subst o.
  cbn [bind emit ret fst snd app]. rewrite Hdepth, Ha.
  cbn [enqueue_links]. unfold href. rewrite Hh. cbn [obind]. rewrite He.
  cbn [obind lift bind]. now rewrite app_nil_r.
Qed.

Lemma search_aborts_on_unresolvable_link_witness :
  search_keywords_across_web Shop.env Sample.direct ["desk"] 1 30 1
    ["https://shop.test"]
  = Some (Raise "Invalid IPv6 URL",
          [Visit "https://shop.test" 0; HttpGet "https://shop.test";
           Sleep 1]).
Proof.
  refine (search_aborts_on_unresolvable_link Shop.env Sample.direct ["desk"]
            1 30 0 "https://shop.test" [] (Sample.tree Shop.listing)
            _ _ "http://[" "Invalid IPv6 URL" _ _ _ _ _ _);
    reflexivity.
Defined.
